(** * OIDC authentication gateway (templates/server/auth_oidc.py)

    A shallow embedding of the authentication module of the MCP server
    template: the JWKS cache, token verification, the JWE fallback
    decryptor, the authentication middleware and the Dynamic Client
    Registration (DCR) proxy.

    Modelling conventions.
    - A Python [str] is the Rocq [string] of its UTF-8 bytes; a lone
      surrogate is written as its three-byte sequence, as the
      ['surrogatepass'] error handler writes it.  [py_chars] splits a
      [str] into its characters, and [s.encode('utf-8')] and
      [s.encode('latin-1')] raise their [UnicodeEncodeError] (a
      [ValueError]) with Python's message.
    - Python [bytes] are [list byte].
    - Values produced by [json.loads], [response.json()] and
      [yaml.safe_load] are [json]; a Python [dict] is an association list
      with unique keys kept in insertion order.
    - Exceptions are the three classes the handlers distinguish:
      [ValueError] (and its subclasses), [JoseError], and every other
      exception class.
    - The provider object, the network and the file system are one state
      threaded through a state-and-exception monad [M]. *)

From Stdlib Require Import ZArith Lia Bool Ascii String List.
From Stdlib Require Import Strings.Byte.
From stdpp Require Import base gmap strings list.
Import ListNotations.

Open Scope Z_scope.
Local Set Warnings "-register-all".

(* ------------------------------------------------------------------ *)
(** ** JSON values and Python value semantics *)

Inductive json : Type :=
| JNull
| JBool (b : bool)
| JNum (z : Z)
| JStr (s : string)
| JArr (l : list json)
| JObj (kv : list (string * json)).

(** Python truthiness ([bool(v)]). *)
Definition truthy (v : json) : bool :=
  match v with
  | JNull => false
  | JBool b => b
  | JNum z => negb (Z.eqb z 0)
  | JStr s => negb (String.eqb s "")
  | JArr l => negb (Nat.eqb (List.length l) 0)
  | JObj kv => negb (Nat.eqb (List.length kv) 0)
  end.

(** [dict.get(k)]: the value stored under key [k]. *)
Fixpoint dget (k : string) (kv : list (string * json)) : option json :=
  match kv with
  | [] => None
  | (k', v) :: kv' => if String.eqb k k' then Some v else dget k kv'
  end.

(** [d[k] = v]: replaces the value in place, or appends a new key. *)
Fixpoint dset (k : string) (v : json) (kv : list (string * json))
    : list (string * json) :=
  match kv with
  | [] => [(k, v)]
  | (k', w) :: kv' =>
      if String.eqb k k' then (k', v) :: kv' else (k', w) :: dset k v kv'
  end.

(** [del d[k]] (only called on a key that is present). *)
Fixpoint ddel (k : string) (kv : list (string * json)) : list (string * json) :=
  match kv with
  | [] => []
  | (k', w) :: kv' => if String.eqb k k' then kv' else (k', w) :: ddel k kv'
  end.

Definition dmem (k : string) (kv : list (string * json)) : bool :=
  match dget k kv with Some _ => true | None => false end.

(** Python [==] on these values ([True == 1], dicts compared as maps). *)
Fixpoint py_eq (a b : json) : bool :=
  match a, b with
  | JNull, JNull => true
  | JBool x, JBool y => Bool.eqb x y
  | JBool x, JNum z => Z.eqb (if x then 1 else 0) z
  | JNum z, JBool x => Z.eqb z (if x then 1 else 0)
  | JNum x, JNum y => Z.eqb x y
  | JStr s, JStr t => String.eqb s t
  | JArr l, JArr m =>
      (fix go (l m : list json) : bool :=
         match l, m with
         | [], [] => true
         | x :: l', y :: m' => py_eq x y && go l' m'
         | _, _ => false
         end) l m
  | JObj kv, JObj kw =>
      Nat.eqb (List.length kv) (List.length kw) &&
      (fix go (kv : list (string * json)) : bool :=
         match kv with
         | [] => true
         | (k, v) :: kv' =>
             match dget k kw with
             | Some w => py_eq v w && go kv'
             | None => false
             end
         end) kv
  | _, _ => false
  end.

(** [x in l] for a Python list. *)
Definition py_in (x : json) (l : list json) : bool := existsb (py_eq x) l.

(** [needle in hay] for Python strings. *)
Fixpoint str_contains (needle hay : string) : bool :=
  String.prefix needle hay ||
  match hay with
  | EmptyString => false
  | String _ hay' => str_contains needle hay'
  end.

(** [s.split(sep)] for a one-character separator. *)
Fixpoint py_split_char (sep : ascii) (s : string) : list string :=
  match s with
  | EmptyString => [EmptyString]
  | String c s' =>
      if Ascii.eqb c sep then EmptyString :: py_split_char sep s'
      else match py_split_char sep s' with
           | [] => [String c EmptyString]
           | w :: ws => String c w :: ws
           end
  end.

(* ------------------------------------------------------------------ *)
(** ** Python text

    A Python [str] is the Rocq [string] of its UTF-8 bytes; a lone
    surrogate (which [json.loads] and [response.json()] can produce from a
    [\ud800] escape) is written as its three-byte sequence [ED A0..BF xx],
    the way the ['surrogatepass'] error handler writes it.  A literal of
    the source is the same literal here. *)

(** The length of the UTF-8 sequence a byte starts; a continuation byte
    on its own counts as one character. *)
Definition lead_len (c : ascii) : nat :=
  let n := nat_of_ascii c in
  if (n <? 192)%nat then 1%nat else if (n <? 224)%nat then 2%nat
  else if (n <? 240)%nat then 3%nat else 4%nat.

(** The characters of a [str], each one the string of its bytes. *)
Fixpoint py_chars (s : string) : list string :=
  match s with
  | EmptyString => []
  | String c s1 =>
      match lead_len c, s1 with
      | 2%nat, String c1 s2 => String c (String c1 EmptyString) :: py_chars s2
      | 3%nat, String c1 (String c2 s3) =>
          String c (String c1 (String c2 EmptyString)) :: py_chars s3
      | 4%nat, String c1 (String c2 (String c3 s4)) =>
          String c (String c1 (String c2 (String c3 EmptyString))) :: py_chars s4
      | _, _ => String c EmptyString :: py_chars s1
      end
  end.

(** A character whose bytes form a whole sequence. *)
Definition full_char (ch : string) : bool :=
  match ch with
  | EmptyString => false
  | String c _ => Nat.eqb (String.length ch) (lead_len c)
  end.

(** A well-formed [str]: no sequence cut short. *)
Definition complete_text (s : string) : bool := forallb full_char (py_chars s).

Definition byte_val (c : ascii) : Z := Z.of_nat (nat_of_ascii c).

(** [ord(ch)]. *)
Definition code_point (ch : string) : Z :=
  match ch with
  | String c EmptyString => byte_val c
  | String c (String c1 EmptyString) =>
      Z.lor (Z.shiftl (Z.land (byte_val c) 31) 6) (Z.land (byte_val c1) 63)
  | String c (String c1 (String c2 EmptyString)) =>
      Z.lor (Z.shiftl (Z.land (byte_val c) 15) 12)
        (Z.lor (Z.shiftl (Z.land (byte_val c1) 63) 6) (Z.land (byte_val c2) 63))
  | String c (String c1 (String c2 (String c3 _))) =>
      Z.lor (Z.shiftl (Z.land (byte_val c) 7) 18)
        (Z.lor (Z.shiftl (Z.land (byte_val c1) 63) 12)
           (Z.lor (Z.shiftl (Z.land (byte_val c2) 63) 6) (Z.land (byte_val c3) 63)))
  | EmptyString => 0
  end.

(** The code points of a [str]. *)
Definition code_points (s : string) : list Z := map code_point (py_chars s).

Definition ascii_of_Z (z : Z) : ascii := ascii_of_nat (Z.to_nat z).

(** [chr(n)], as its UTF-8 bytes. *)
Definition chr (n : Z) : string :=
  if n <? 128 then String (ascii_of_Z n) EmptyString
  else if n <? 2048 then
    String (ascii_of_Z (192 + n / 64)) (String (ascii_of_Z (128 + n mod 64)) EmptyString)
  else if n <? 65536 then
    String (ascii_of_Z (224 + n / 4096))
      (String (ascii_of_Z (128 + (n / 64) mod 64))
         (String (ascii_of_Z (128 + n mod 64)) EmptyString))
  else
    String (ascii_of_Z (240 + n / 262144))
      (String (ascii_of_Z (128 + (n / 4096) mod 64))
         (String (ascii_of_Z (128 + (n / 64) mod 64))
            (String (ascii_of_Z (128 + n mod 64)) EmptyString))).

(** [''.join(l)]. *)
Definition str_concat (l : list string) : string := fold_right String.append "" l.

(** [len(s)]. *)
Definition py_len (s : string) : nat := length (py_chars s).

(** Whether every character of [s] is below U+0100, i.e. whether
    [s.encode('latin-1')] succeeds. *)
Definition latin1_text (s : string) : bool :=
  forallb (fun n => n <=? 255) (code_points s).

(** [str.isspace()] on one character. *)
Definition py_isspace_cp (n : Z) : bool :=
  ((9 <=? n) && (n <=? 13)) || ((28 <=? n) && (n <=? 32)) || (n =? 133) || (n =? 160)
  || (n =? 5760) || ((8192 <=? n) && (n <=? 8202)) || (n =? 8232) || (n =? 8233)
  || (n =? 8239) || (n =? 8287) || (n =? 12288).
Definition py_isspace (ch : string) : bool := full_char ch && py_isspace_cp (code_point ch).

(** [s.split()]: split on runs of whitespace, dropping empty words. *)
Fixpoint split_words (cur : string) (cs : list string) : list string :=
  match cs with
  | [] => if String.eqb cur "" then [] else [cur]
  | ch :: cs' =>
      if py_isspace ch then
        (if String.eqb cur "" then [] else [cur]) ++ split_words "" cs'
      else split_words (cur +:+ ch) cs'
  end.
Definition py_split_ws (s : string) : list string := split_words "" (py_chars s).

(** [str.lower()] on one character of U+0000..U+00FF, the range of every
    request header value (Starlette decodes header bytes as latin-1);
    a character above is kept as it is. *)
Definition lower_char (ch : string) : string :=
  let n := code_point ch in
  if full_char ch && (((65 <=? n) && (n <=? 90))
                      || ((192 <=? n) && (n <=? 222) && negb (n =? 215)))
  then chr (n + 32) else ch.
Definition py_lower (s : string) : string := str_concat (map lower_char (py_chars s)).

(** [s.rstrip(ch)]. *)
Fixpoint drop_while_ch (ch : ascii) (l : list ascii) : list ascii :=
  match l with
  | [] => []
  | c :: l' => if Ascii.eqb c ch then drop_while_ch ch l' else l
  end.
Definition py_rstrip (ch : ascii) (s : string) : string :=
  string_of_list_ascii
    (rev (drop_while_ch ch (rev (list_ascii_of_string s)))).

(** [str(n)] for a natural number. *)
Fixpoint digits_aux (fuel n : nat) (acc : string) : string :=
  match fuel with
  | O => acc
  | S f =>
      let d := String (ascii_of_nat (48 + Nat.modulo n 10)) EmptyString in
      if (n <? 10)%nat then d +:+ acc else digits_aux f (Nat.div n 10) (d +:+ acc)
  end.
Definition py_str_nat (n : nat) : string := digits_aux (S n) n "".

(** Lower-case hexadecimal digits of [n], [width] of them. *)
Definition hex_digit (n : Z) : string :=
  String (ascii_of_Z (if n <? 10 then 48 + n else 87 + n)) EmptyString.
Fixpoint hex_fixed (width : nat) (n : Z) : string :=
  match width with
  | O => ""
  | S w => hex_fixed w (n / 16) +:+ hex_digit (n mod 16)
  end.

(** How a [UnicodeEncodeError] message shows a character. *)
Definition char_escape (n : Z) : string :=
  if n <=? 255 then "\x" +:+ hex_fixed 2 n
  else if n <=? 65535 then "\u" +:+ hex_fixed 4 n
  else "\U" +:+ hex_fixed 8 n.

Fixpoint run_length (bad : Z -> bool) (cps : list Z) : nat :=
  match cps with
  | [] => O
  | n :: cps' => if bad n then S (run_length bad cps') else O
  end.

(** The first run of characters [bad] rejects: its position, its length
    and its first character. *)
Fixpoint first_bad (bad : Z -> bool) (i : nat) (cps : list Z) : option (nat * nat * Z) :=
  match cps with
  | [] => None
  | n :: cps' =>
      if bad n then Some (i, S (run_length bad cps'), n)
      else first_bad bad (S i) cps'
  end.

(** [str(e)] of the [UnicodeEncodeError] that [s.encode(codec)] raises
    ([None]: the encoding succeeds). *)
Definition encode_error (codec reason : string) (bad : Z -> bool) (s : string)
    : option string :=
  match first_bad bad 0 (code_points s) with
  | None => None
  | Some (i, k, n) =>
      Some (if Nat.eqb k 1 then
              "'" +:+ codec +:+ "' codec can't encode character '" +:+ char_escape n
                +:+ "' in position " +:+ py_str_nat i +:+ ": " +:+ reason
            else
              "'" +:+ codec +:+ "' codec can't encode characters in position "
                +:+ py_str_nat i +:+ "-" +:+ py_str_nat (i + k - 1) +:+ ": " +:+ reason)
  end.

Definition is_surrogate (n : Z) : bool := (55296 <=? n) && (n <=? 57343).
Definition above_latin1 (n : Z) : bool := 256 <=? n.

(** [s.encode('utf-8')]: a lone surrogate makes it raise. *)
Definition utf8_encode_error (s : string) : option string :=
  encode_error "utf-8" "surrogates not allowed" is_surrogate s.
(** [s.encode('latin-1')]. *)
Definition latin1_encode_error (s : string) : option string :=
  encode_error "latin-1" "ordinal not in range(256)" above_latin1 s.

(* ------------------------------------------------------------------ *)
(** ** Exceptions and the state-and-exception monad *)

Inductive exn : Type :=
| ValueError (msg : string)
| JoseError (error description : string)
| OtherError (cls msg : string).

(** [str(e)]; authlib's [JoseError.__str__] is
    [f'{self.error}: {self.description}'], and [JoseError(msg)] sets
    [error] to [msg] and leaves the description empty. *)
Definition exn_str (e : exn) : string :=
  match e with
  | ValueError m | OtherError _ m => m
  | JoseError er d => er +:+ ": " +:+ d
  end.

Inductive res (A : Type) : Type :=
| Ok (a : A)
| Raise (e : exn).
Arguments Ok {A} a.
Arguments Raise {A} e.

(** Python [repr] of a value, as used in the f-string error messages
    (string escapes are not reproduced). *)
Definition py_str_Z (z : Z) : string :=
  if Z.ltb z 0 then "-" +:+ py_str_nat (Z.to_nat (- z)) else py_str_nat (Z.to_nat z).

Fixpoint py_repr (v : json) : string :=
  match v with
  | JNull => "None"
  | JBool b => if b then "True" else "False"
  | JNum z => py_str_Z z
  | JStr s => "'" +:+ s +:+ "'"
  | JArr l =>
      "[" +:+ (fix go (l : list json) : string :=
                match l with
                | [] => ""
                | [x] => py_repr x
                | x :: l' => py_repr x +:+ ", " +:+ go l'
                end) l +:+ "]"
  | JObj kv =>
      "{" +:+ (fix go (kv : list (string * json)) : string :=
                match kv with
                | [] => ""
                | [(k, x)] => "'" +:+ k +:+ "': " +:+ py_repr x
                | (k, x) :: kv' => "'" +:+ k +:+ "': " +:+ py_repr x +:+ ", " +:+ go kv'
                end) kv +:+ "}"
  end.

(** A double quote and a backslash character. *)
Definition dq : string := String (ascii_of_nat 34) EmptyString.
Definition bslash : string := String (ascii_of_nat 92) EmptyString.

(** One character of a JSON string literal, as [json.dumps] writes it
    with [ensure_ascii=False]. *)
Definition json_escape_char (ch : string) : string :=
  let n := code_point ch in
  if n =? 34 then bslash +:+ dq
  else if n =? 92 then bslash +:+ bslash
  else if n =? 8 then bslash +:+ "b"
  else if n =? 12 then bslash +:+ "f"
  else if n =? 10 then bslash +:+ "n"
  else if n =? 13 then bslash +:+ "r"
  else if n =? 9 then bslash +:+ "t"
  else if n <? 32 then bslash +:+ "u00" +:+ hex_fixed 2 n
  else ch.

Definition json_str (s : string) : string :=
  dq +:+ str_concat (map json_escape_char (py_chars s)) +:+ dq.

(** [json.dumps(v, ensure_ascii=False, separators=(",", ":"))], the
    rendering of Starlette's [JSONResponse]. *)
Fixpoint py_dumps (v : json) : string :=
  match v with
  | JNull => "null"
  | JBool b => if b then "true" else "false"
  | JNum z => py_str_Z z
  | JStr s => json_str s
  | JArr l =>
      "[" +:+ (fix go (l : list json) : string :=
                match l with
                | [] => ""
                | [x] => py_dumps x
                | x :: l' => py_dumps x +:+ "," +:+ go l'
                end) l +:+ "]"
  | JObj kv =>
      "{" +:+ (fix go (kv : list (string * json)) : string :=
                match kv with
                | [] => ""
                | [(k, x)] => json_str k +:+ ":" +:+ py_dumps x
                | (k, x) :: kv' => json_str k +:+ ":" +:+ py_dumps x +:+ "," +:+ go kv'
                end) kv +:+ "}"
  end.

(** Contents of a YAML secrets file, as seen by [yaml.safe_load]. *)
Inductive yfile : Type :=
| YList (l : list json)   (* a mapping whose [client_secrets] is a list *)
| YScalar (s : string)    (* a mapping whose [client_secrets] is a string *)
| YValue (v : json)       (* a mapping whose [client_secrets] is [None], a
                             boolean, a number or a mapping *)
| YNoKey                  (* a mapping without a [client_secrets] key,
                             the empty mapping included *)
| YEmpty                  (* a falsy document that is not a mapping: [None]
                             (an empty file), [[]], [''], [0], [False] *)
| YOther.                 (* unreadable, unparsable, or a truthy document
                             that is not a mapping *)

(** The mutable state: the JWKS cache of the provider, the network and
    the clock it sees, the in-memory secret list and the file system. *)
Record state : Type := mkState {
  jwks : json;                 (* JWKSCache._jwks ([None] is [JNull]) *)
  last_fetch : Z;              (* JWKSCache._last_fetch *)
  clock : Z;                   (* what time.time() returns *)
  net : list (option json);    (* replies to the next JWKS GETs; [None]: error *)
  fetches : nat;               (* number of JWKS GETs issued so far *)
  client_secrets : list json;  (* OIDCAuthProvider.client_secrets *)
  files : gmap string yfile;   (* the file system *)
  readonly : list string       (* paths whose writes fail *)
}.

Definition M (A : Type) : Type := state -> res A * state.

Global Instance M_ret : MRet M := fun A a s => (Ok a, s).
Global Instance M_bind : MBind M := fun A B f m s =>
  match m s with
  | (Ok a, s') => f a s'
  | (Raise e, s') => (Raise e, s')
  end.

Definition raise {A} (e : exn) : M A := fun s => (Raise e, s).
Definition lift_res {A} (r : res A) : M A := fun s => (r, s).

(* ------------------------------------------------------------------ *)
(** ** Provider configuration *)

Record config : Type := mkConfig {
  issuer : string;
  audience : string;
  public_url : option string;
  required_scope : option string;
  cache_ttl : Z;                       (* JWKSCache(jwks_uri) : 3600 *)
  client_secrets_file : option string;
  mgmt_client_id : option string;
  dcr_secrets_default : string         (* /etc/mcp/secrets/dcr-captured-secrets.yaml *)
}.

Definition opt_truthy (o : option string) : bool :=
  match o with Some s => negb (String.eqb s "") | None => false end.

(** [a or b] on optional strings. *)
Definition py_or (a b : option string) : option string :=
  if opt_truthy a then a else b.

(** Default of the [required_scope] parameter of [OIDCAuthProvider.__init__]. *)
Definition required_scope_param_default : option string := Some "openid".

(** [self.required_scope = required_scope or config.get("scope") or os.getenv("OIDC_SCOPE")] *)
Definition resolve_required_scope (param config_scope env_scope : option string)
    : option string :=
  py_or (py_or param config_scope) env_scope.

(* ------------------------------------------------------------------ *)
(** ** JWKSCache.get_jwks *)

Definition set_cache (j : json) (t : Z) (s : state) : state :=
  mkState j t (clock s) (net s) (fetches s) (client_secrets s) (files s) (readonly s).

(** One GET against [jwks_uri]: consumes the next network reply. *)
Definition fetch_step (s : state) : option json * state :=
  let s' := mkState (jwks s) (last_fetch s) (clock s) (tl (net s)) (S (fetches s))
                    (client_secrets s) (files s) (readonly s) in
  match net s with
  | Some j :: _ => (Some j, s')
  | _ => (None, s')
  end.

Definition get_jwks (cache_ttl : Z) : M json := fun s =>
  let current_time := clock s in
  if truthy (jwks s) && Z.ltb (current_time - last_fetch s) cache_ttl
  then (Ok (jwks s), s)
  else
    match fetch_step s with
    | (Some j, s') => (Ok j, set_cache j current_time s')
    | (None, s') => (Raise (OtherError "HTTPStatusError" "JWKS fetch failed"), s')
    end.

(* ------------------------------------------------------------------ *)
(** ** OIDCAuthProvider.verify_token *)

Section Verify.

(** [jwt.decode(token, jwks_data)] followed by [claims.validate()]
    (authlib): the claim set, or the exception authlib raises. *)
Variable jwt_decode : string -> json -> res (list (string * json)).

Definition jwe_detected_msg : string := "JWE_TOKEN_DETECTED: Cannot decrypt JWE token".

Definition format_error_msg (n : nat) : string :=
  "Invalid token format: expected 3 parts (JWT), got " +:+ py_str_nat n.

Definition check_issuer (cfg : config) (claims : list (string * json)) : res unit :=
  match default (JStr "") (dget "iss" claims) with
  | JStr iss =>
      let token_issuer := py_rstrip "/" iss in
      let backend_issuer := py_rstrip "/" (issuer cfg) in
      let valid_issuers :=
        [backend_issuer] ++
        (match public_url cfg with
         | Some pu =>
             if negb (String.eqb pu "") && negb (String.eqb (py_rstrip "/" pu) "")
                && negb (String.eqb (py_rstrip "/" pu) backend_issuer)
             then [py_rstrip "/" pu] else []
         | None => []
         end) in
      if existsb (String.eqb token_issuer) valid_issuers then Ok tt
      else Raise (ValueError ("Invalid issuer. Expected one of " +:+
                              py_repr (JArr (map JStr valid_issuers)) +:+
                              ", got '" +:+ token_issuer +:+ "'"))
  | _ => Raise (OtherError "AttributeError" "object has no attribute 'rstrip'")
  end.

Definition check_audience (cfg : config) (claims : list (string * json)) : res unit :=
  let aud := default JNull (dget "aud" claims) in
  match aud with
  | JArr l =>
      if py_in (JStr (audience cfg)) l then Ok tt
      else Raise (ValueError ("Invalid audience. Expected '" +:+ audience cfg +:+
                              "' in " +:+ py_repr aud))
  | _ =>
      if py_eq aud (JStr (audience cfg)) then Ok tt
      else Raise (ValueError ("Invalid audience. Expected '" +:+ audience cfg +:+
                              "', got '" +:+ py_repr aud +:+ "'"))
  end.

(** The container [scopes] and Python's [x in scopes] on it. *)
Definition scope_member (r : string) (scope : json) : res (bool * json) :=
  match scope with
  | JStr s => let l := map JStr (py_split_ws s) in Ok (py_in (JStr r) l, JArr l)
  | JArr l => Ok (py_in (JStr r) l, scope)
  | JObj kv => Ok (dmem r kv, scope)
  | _ => Raise (OtherError "TypeError" "argument is not iterable")
  end.

Definition check_scope (cfg : config) (claims : list (string * json)) : res unit :=
  match required_scope cfg with
  | Some r =>
      if String.eqb r "" then Ok tt
      else
        match scope_member r (default (JStr "") (dget "scope" claims)) with
        | Raise e => Raise e
        | Ok (true, _) => Ok tt
        | Ok (false, scopes) =>
            Raise (ValueError ("Required scope '" +:+ r +:+
                               "' not found in token. Token has: " +:+ py_repr scopes))
        end
  | None => Ok tt
  end.

Definition res_bind {A B} (r : res A) (f : A -> res B) : res B :=
  match r with Ok a => f a | Raise e => Raise e end.

(** [type(v).__name__]. *)
Definition py_type_name (v : json) : string :=
  match v with
  | JNull => "NoneType"
  | JBool _ => "bool"
  | JNum _ => "int"
  | JStr _ => "str"
  | JArr _ => "list"
  | JObj _ => "dict"
  end.

(** [len(jwks_data.get('keys', []))], evaluated for the debug log line
    before [jwt.decode]. *)
Definition jwks_key_count (jwks_data : json) : res nat :=
  match jwks_data with
  | JObj kv =>
      match default (JArr []) (dget "keys" kv) with
      | JArr l => Ok (length l)
      | JObj kv' => Ok (length kv')
      | JStr k => Ok (py_len k)
      | v => Raise (OtherError "TypeError"
                      ("object of type '" +:+ py_type_name v +:+ "' has no len()"))
      end
  | v => Raise (OtherError "AttributeError"
                  ("'" +:+ py_type_name v +:+ "' object has no attribute 'get'"))
  end.

(** The JWT path after the key set is known. *)
Definition verify_jwt (cfg : config) (token : string) (jwks_data : json)
    : res json :=
  res_bind (jwks_key_count jwks_data) (fun _ =>
  res_bind (jwt_decode token jwks_data) (fun claims =>
  res_bind (check_issuer cfg claims) (fun _ =>
  res_bind (check_audience cfg claims) (fun _ =>
  res_bind (check_scope cfg claims) (fun _ =>
  Ok (JObj claims)))))).

Definition verify_token (cfg : config) (token : string) : M json :=
  let token_parts := py_split_char "." token in
  if Nat.eqb (length token_parts) 5 then raise (JoseError jwe_detected_msg "")
  else if negb (Nat.eqb (length token_parts) 3) then
    raise (JoseError (format_error_msg (length token_parts)) "")
  else
    jwks_data ← get_jwks (cache_ttl cfg);
    lift_res (verify_jwt cfg token jwks_data).

End Verify.

(* ------------------------------------------------------------------ *)
(** ** OIDCAuthProvider.authenticate_request and OIDCAuthMiddleware *)

Record request : Type := mkRequest {
  req_path : string;             (* request.url.path *)
  req_authorization : option string  (* request.headers.get('Authorization') *)
}.

Record response : Type := Response {
  status : Z;
  content : json;
  resp_headers : list (string * string)
}.

(** The first header value [.encode('latin-1')] rejects, as the message of
    the error.  Header names are ASCII tokens (h11 accepts no others from
    upstream, and the middleware's names are literals), so their encoding
    never fails. *)
Fixpoint header_error (headers : list (string * string)) : option string :=
  match headers with
  | [] => None
  | (_, v) :: hs =>
      match latin1_encode_error v with
      | Some msg => Some msg
      | None => header_error hs
      end
  end.

(** [JSONResponse(content=..., status_code=..., headers=...)]: [render]
    encodes the compact JSON text as UTF-8, then [init_headers] encodes
    every header as latin-1; the [UnicodeEncodeError] either raises is a
    [ValueError]. *)
Definition json_response (status_code : Z) (body : json)
    (headers : list (string * string)) : res response :=
  match utf8_encode_error (py_dumps body) with
  | Some msg => Raise (ValueError msg)
  | None =>
      match header_error headers with
      | Some msg => Raise (ValueError msg)
      | None => Ok (Response status_code body headers)
      end
  end.

Definition missing_header_msg : string := "Missing Authorization header".
Definition bad_header_msg : string :=
  "Invalid Authorization header format. Expected 'Bearer <token>'".

Definition authenticate_request
    (jwt_decode : string -> json -> res (list (string * json)))
    (cfg : config) (auth_header : option string) : M json :=
  match auth_header with
  | None => raise (ValueError missing_header_msg)
  | Some h =>
      if String.eqb h "" then raise (ValueError missing_header_msg)
      else
        match py_split_ws h with
        | [scheme; token] =>
            if String.eqb (py_lower scheme) "bearer"
            then verify_token jwt_decode cfg token
            else raise (ValueError bad_header_msg)
        | _ => raise (ValueError bad_header_msg)
        end
  end.

Definition default_exclude_paths : list string :=
  ["/healthz"; "/readyz"; "/.well-known/"; "/register"].

(** [self.exclude_paths = exclude_paths or [...]] *)
Definition exclude_list (exclude_paths : option (list string)) : list string :=
  match exclude_paths with
  | Some ((_ :: _) as l) => l
  | _ => default_exclude_paths
  end.

(** The beginning of an RFC 6750 [WWW-Authenticate] value with an error code. *)
Definition www_auth_prefix (code : string) : string :=
  "Bearer realm=" +:+ dq +:+ "MCP API" +:+ dq +:+ ", error=" +:+ dq +:+ code +:+ dq.

(** The three [except] clauses of [dispatch]; an exception raised while
    building the response leaves [dispatch]. *)
Definition handle_auth_error (e : exn) : res response :=
  match e with
  | ValueError _ =>
      let m := exn_str e in
      let code := if str_contains "Missing" m then "invalid_request" else "invalid_token" in
      json_response 401
        (JObj [("error", JStr "unauthorized"); ("error_description", JStr m)])
        [("WWW-Authenticate",
          www_auth_prefix code +:+ ", error_description=" +:+ dq +:+ m +:+ dq)]
  | JoseError _ _ =>
      let error_description :=
        if String.eqb (exn_str e) "" then "Token verification failed" else exn_str e in
      let error_code :=
        if str_contains "JWE_TOKEN_DETECTED" error_description
        then "invalid_client" else "invalid_token" in
      json_response 401
        (JObj [("error", JStr error_code); ("error_description", JStr error_description)])
        [("WWW-Authenticate",
          www_auth_prefix error_code +:+ ", error_description=" +:+ dq
            +:+ error_description +:+ dq)]
  | OtherError _ _ =>
      json_response 500
        (JObj [("error", JStr "server_error");
               ("error_description", JStr "Internal authentication error")])
        []
  end.

(** [OIDCAuthMiddleware.dispatch].  [call_next] is the downstream
    application, given the claims put in [request.state] ([None] when the
    request was not authenticated). *)
Definition dispatch
    (jwt_decode : string -> json -> res (list (string * json)))
    (call_next : option json -> res response)
    (cfg : config) (exclude_paths : option (list string)) (req : request)
    : M response := fun s =>
  if existsb (fun excluded => String.prefix excluded (req_path req))
             (exclude_list exclude_paths)
  then (call_next None, s)
  else
    match authenticate_request jwt_decode cfg (req_authorization req) s with
    | (Ok claims, s') =>
        match call_next (Some claims) with
        | Ok r => (Ok r, s')
        | Raise e => (handle_auth_error e, s')
        end
    | (Raise e, s') => (handle_auth_error e, s')
    end.

(* ------------------------------------------------------------------ *)
(** ** Bytes: UTF-8 encoding and decoding *)

Definition byte_of_nat (n : nat) : byte :=
  match Byte.of_nat n with Some b => b | None => Byte.x00 end.

(** [s.encode('utf-8')] of a [str] without lone surrogates: its bytes. *)
Definition utf8_encode (s : string) : list byte := list_byte_of_string s.

Definition in_range (lo hi : nat) (b : byte) : bool :=
  ((lo <=? Byte.to_nat b) && (Byte.to_nat b <=? hi))%nat.
Definition cont (b : byte) : bool := in_range 128 191 b.

(** Whether [bytes.decode('utf-8', errors)] succeeds (Unicode Table 3-7),
    with [errors='strict'] or, when [surrogatepass] is set,
    [errors='surrogatepass'], which also takes the three-byte encodings
    [ED A0..BF xx] of the surrogates. *)
Fixpoint utf8_decodes (surrogatepass : bool) (l : list byte) : bool :=
  match l with
  | [] => true
  | b :: l1 =>
      if in_range 0 127 b then utf8_decodes surrogatepass l1
      else if in_range 194 223 b then
        match l1 with
        | c1 :: l2 => cont c1 && utf8_decodes surrogatepass l2
        | _ => false
        end
      else if in_range 224 239 b then
        match l1 with
        | c1 :: c2 :: l3 =>
            (if in_range 224 224 b then in_range 160 191 c1
             else if in_range 237 237 b && negb surrogatepass then in_range 128 159 c1
             else cont c1) && cont c2 && utf8_decodes surrogatepass l3
        | _ => false
        end
      else if in_range 240 244 b then
        match l1 with
        | c1 :: c2 :: c3 :: l4 =>
            (if in_range 240 240 b then in_range 144 191 c1
             else if in_range 244 244 b then in_range 128 143 c1
             else cont c1) && cont c2 && cont c3 && utf8_decodes surrogatepass l4
        | _ => false
        end
      else false
  end.

(** [bytes.decode('utf-8')]. *)
Definition utf8_valid (l : list byte) : bool := utf8_decodes false l.

(* ------------------------------------------------------------------ *)
(** ** OIDCAuthProvider._prepare_jwe_key and _decrypt_jwe_token *)

Section Jwe.

(** [base64.urlsafe_b64decode] applied to the ASCII bytes of a string
    ([None]: [binascii.Error]). *)
Variable urlsafe_b64decode : list byte -> option (list byte).
(** [hashlib.sha256(b).digest()]. *)
Variable sha256 : list byte -> list byte.
(** [jwe.deserialize_compact(token, key)['payload']] (authlib). *)
Variable deserialize_compact : string -> list byte -> res (list byte).
(** [json.loads] of the text of a payload that is valid UTF-8
    ([None]: [JSONDecodeError]). *)
Variable loads_text : list byte -> option json.

Definition is_ascii (s : string) : bool :=
  forallb (fun c => (nat_of_ascii c <? 128)%nat) (list_ascii_of_string s).

(** Method 1: base64url decoding after padding to a multiple of 4
    characters; a non-ASCII string makes [urlsafe_b64decode] raise. *)
Definition b64_candidate (secret : string) : list (string * list byte) :=
  let padding := (4 - Nat.modulo (py_len secret) 4)%nat in
  let padded_secret :=
    if Nat.eqb padding 4 then secret
    else secret +:+ string_of_list_ascii (repeat "="%char padding) in
  if is_ascii padded_secret then
    match urlsafe_b64decode (utf8_encode padded_secret) with
    | Some decoded =>
        if Nat.eqb (length decoded) 32 then [("base64url-decoded", decoded)] else []
    | None => []
    end
  else [].

Definition prepare_jwe_key (secret : string) : list (string * list byte) :=
  let secret_bytes := utf8_encode secret in
  b64_candidate secret
  ++ [("sha256-hash", sha256 secret_bytes)]
  ++ (if Nat.eqb (length secret_bytes) 32 then [("utf8-direct", secret_bytes)] else [])
  ++ (if (32 <=? length secret_bytes)%nat
      then [("utf8-truncated", firstn 32 secret_bytes)] else [])
  ++ [("raw", secret_bytes)].

(** One attempt of the inner [try] block: decrypt, decode the payload as
    UTF-8, parse it as JSON. *)
Definition try_key (token : string) (key : list byte) : option json :=
  match deserialize_compact token key with
  | Ok payload => if utf8_valid payload then loads_text payload else None
  | Raise _ => None
  end.

(** The inner loop over the key variations of one secret. *)
Fixpoint try_keys (token : string) (keys : list (string * list byte)) : option json :=
  match keys with
  | [] => None
  | (_, key) :: keys' =>
      match try_key token key with
      | Some claims => Some claims
      | None => try_keys token keys'
      end
  end.

Definition jwe_exhausted_msg : string :=
  "Cannot decrypt JWE token. This may be a cached credential from a previous " +:+
  "confidential client registration. Please disconnect and reconnect to create " +:+
  "a new public client that uses unencrypted tokens.".

(** The outer loop over [self.client_secrets].  A secret that is not a
    string makes the preview [secret[:8]], [len(secret)] or
    [hashlib.sha256] raise [TypeError] outside the inner [try]; a lone
    surrogate makes [secret.encode('utf-8')], the first step of
    [_prepare_jwe_key], raise [UnicodeEncodeError] there too. *)
Fixpoint decrypt_jwe_token (token : string) (secrets : list json) : res json :=
  match secrets with
  | [] => Raise (JoseError jwe_exhausted_msg "")
  | JStr secret :: secrets' =>
      match utf8_encode_error secret with
      | Some msg => Raise (ValueError msg)
      | None =>
          match try_keys token (prepare_jwe_key secret) with
          | Some claims => Ok claims
          | None => decrypt_jwe_token token secrets'
          end
      end
  | _ :: _ => Raise (OtherError "TypeError" "secret is not a string")
  end.

End Jwe.

(* ------------------------------------------------------------------ *)
(** ** Client secret store: loading at construction and DCR persistence *)

(** [_load_client_secrets_file]: [None] when it raises. *)
Definition load_client_secrets (y : yfile) : option (list json) :=
  match y with
  | YList l => Some l
  | YScalar s => Some [JStr s]
  | YValue v => Some [v]
  | YNoKey => Some []
  | YEmpty | YOther => None
  end.

(** [config.get("client_secrets")] when present. *)
Inductive cfg_secrets : Type :=
| CSList (l : list json)
| CSStr (s : string).

(** Appends the secrets not yet present, one at a time. *)
Fixpoint append_new (cs : list json) (l : list json) : list json :=
  match l with
  | [] => cs
  | x :: l' => append_new (if py_in x cs then cs else cs ++ [x]) l'
  end.

(** The secret list built by [OIDCAuthProvider.__init__] from the
    [client_secrets] parameter, the config file's [client_secrets] and
    [client_secrets_file] keys, and the DCR-captured secrets file at
    [dcr_secrets_file].  [mgmt_secret_file] is
    [config.get("mgmt_client_secret_file")] ([JNull] when absent): the
    [from pathlib import Path] in its branch makes [Path] a local name of
    [__init__], unbound when that branch does not run. *)
Definition init_client_secrets (explicit : option (list json))
    (cfg_cs : option cfg_secrets) (cfg_cs_file : option string)
    (mgmt_secret_file : json)
    (dcr_secrets_file : string) (fs : gmap string yfile) : list json :=
  (* self.client_secrets = client_secrets or config.get("client_secrets") or [] *)
  let cs0 :=
    match explicit with
    | Some ((_ :: _) as l) => l
    | _ =>
        match cfg_cs with
        | Some (CSList ((_ :: _) as l)) => l
        | Some (CSStr s) => if String.eqb s "" then [] else [JStr s]
        | _ => []
        end
    end in
  (* client_secrets_file: extend with the file's secrets *)
  let cs1 :=
    match cfg_cs_file with
    | Some f =>
        if String.eqb f "" then cs0
        else match fs !! f with
             | Some y =>
                 match load_client_secrets y with
                 | Some ((_ :: _) as l) => cs0 ++ l
                 | _ => cs0
                 end
             | None => cs0
             end
    | None => cs0
    end in
  (* the DCR-captured secrets file: append those not yet present;
     [Path(dcr_secrets_file)] raises [UnboundLocalError], caught, unless
     the management secret branch imported [Path] *)
  if negb (truthy mgmt_secret_file) then cs1
  else
    match fs !! dcr_secrets_file with
    | Some y =>
        match load_client_secrets y with
        | Some l => append_new cs1 l
        | None => cs1
        end
    | None => cs1
    end.

Definition set_files (fs : gmap string yfile) (s : state) : state :=
  mkState (jwks s) (last_fetch s) (clock s) (net s) (fetches s)
          (client_secrets s) fs (readonly s).

Definition set_secrets (cs : list json) (s : state) : state :=
  mkState (jwks s) (last_fetch s) (clock s) (net s) (fetches s)
          cs (files s) (readonly s).

(** [yaml.dump({'client_secrets': ...})] to [path]; a failed write is
    caught and logged. *)
Definition write_secrets (path : string) (l : list json) (s : state) : state :=
  if existsb (String.eqb path) (readonly s) then s
  else set_files (<[path := YList l]> (files s)) s.

(** The file [_persist_dcr_secret] writes: [client_secrets_file] if
    configured, else the default DCR secrets file. *)
Definition dcr_secrets_path (cfg : config) : string :=
  match client_secrets_file cfg with
  | Some f => if String.eqb f "" then dcr_secrets_default cfg else f
  | None => dcr_secrets_default cfg
  end.

(** [OIDCAuthProvider._persist_dcr_secret]: every exception is caught. *)
Definition persist_dcr_secret (cfg : config) (client_secret : json) (s : state) : state :=
  let secrets_file := dcr_secrets_path cfg in
  match files s !! secrets_file with
  | None => write_secrets secrets_file [client_secret] s
  | Some (YList existing) =>
      if py_in client_secret existing then s
      else write_secrets secrets_file (existing ++ [client_secret]) s
  | Some (YScalar t) =>
      (* [x not in t] is a substring test; [t.append] then raises *)
      s
  | Some (YValue _) =>
      (* [x not in v] raises [TypeError] on [None], a boolean or a number;
         on a mapping it tests the keys and [v.append] then raises *)
      s
  | Some YNoKey | Some YEmpty => write_secrets secrets_file [client_secret] s
  | Some YOther => s
  end.

(** The secret captured from a DCR response: appended to the in-memory
    list when absent, then persisted. *)
Definition capture_secret (cfg : config) (client_secret : json) (s : state) : state :=
  let s1 :=
    if py_in client_secret (client_secrets s) then s
    else set_secrets (client_secrets s ++ [client_secret]) s in
  persist_dcr_secret cfg client_secret s1.




(* ------------------------------------------------------------------ *)
(** ** The DCR proxy: register_client *)

Inductive encoding : Type :=
| Utf8 | Utf8Sig | Utf16 | Utf16BE | Utf16LE | Utf32 | Utf32BE | Utf32LE.

Definition starts_with_bytes (p l : list byte) : bool :=
  Nat.leb (length p) (length l) &&
  forallb (fun '(x, y) => Byte.eqb x y) (combine p (firstn (length p) l)).

Definition bytes_of (l : list nat) : list byte := map byte_of_nat l.

(** [json.detect_encoding]. *)
Definition detect_encoding (b : list byte) : encoding :=
  if starts_with_bytes (bytes_of [0; 0; 254; 255]%nat) b
     || starts_with_bytes (bytes_of [255; 254; 0; 0]%nat) b then Utf32
  else if starts_with_bytes (bytes_of [254; 255]%nat) b
          || starts_with_bytes (bytes_of [255; 254]%nat) b then Utf16
  else if starts_with_bytes (bytes_of [239; 187; 191]%nat) b then Utf8Sig
  else
    match b with
    | b0 :: b1 :: b2 :: b3 :: _ =>
        if Byte.eqb b0 Byte.x00 then
          (if Byte.eqb b1 Byte.x00 then Utf32BE else Utf16BE)
        else if Byte.eqb b1 Byte.x00 then
          (if negb (Byte.eqb b2 Byte.x00) || negb (Byte.eqb b3 Byte.x00)
           then Utf16LE else Utf32LE)
        else Utf8
    | [b0; b1] =>
        if Byte.eqb b0 Byte.x00 then Utf16BE
        else if Byte.eqb b1 Byte.x00 then Utf16LE else Utf8
    | _ => Utf8
    end.

Inductive loads_result : Type :=
| Loaded (v : json)
| JSONDecodeError
| UnicodeDecodeError.

Section Dcr.

(** Whether the bytes decode in a non-UTF-8 encoding chosen by
    [detect_encoding]. *)
Variable decodes_other : encoding -> list byte -> bool.
(** The JSON parser on the decoded text ([None]: [JSONDecodeError]). *)
Variable json_parse : encoding -> list byte -> option json.
(** [json.dumps(v).encode('utf-8')]. *)
Variable json_dumps : json -> list byte.

(** [json.loads(body)] on [bytes]: [s.decode(detect_encoding(s), 'surrogatepass')]
    and the parser. *)
Definition json_loads (b : list byte) : loads_result :=
  let enc := detect_encoding b in
  let decodes :=
    match enc with
    | Utf8 => utf8_decodes true b
    | Utf8Sig => utf8_decodes true (skipn 3 b)
    | _ => decodes_other enc b
    end in
  if decodes then
    match json_parse enc b with
    | Some v => Loaded v
    | None => JSONDecodeError
    end
  else UnicodeDecodeError.

(** [dict(request.headers)]: ASGI header names are lower-case; the first
    value of a repeated header wins. *)
Definition headers_dict (raw : list (string * string)) : gmap string string :=
  foldr (fun '(k, v) m => <[k := v]> m) ∅ raw.

Definition hop_by_hop : list string := ["host"; "connection"; "keep-alive"; "transfer-encoding"].

(** The three fields forced into a parsed registration request. *)
Definition force_public_client (kv : list (string * json)) : list (string * json) :=
  dset "app_type" (JStr "spa")
    (dset "application_type" (JStr "native")
       (dset "token_endpoint_auth_method" (JStr "none") kv)).

(** The body and headers [register_client] sends upstream. *)
Definition prepare_forward (body : list byte) (raw_headers : list (string * string))
    : res (list byte * gmap string string) :=
  let headers := headers_dict raw_headers in
  let fwd :=
    match json_loads body with
    | Loaded (JObj dcr_request) =>
        let modified_body := json_dumps (JObj (force_public_client dcr_request)) in
        Ok (modified_body,
            <["content-length" := py_str_nat (length modified_body)]> headers)
    | Loaded _ => Raise (OtherError "TypeError" "object does not support item assignment")
    | JSONDecodeError => Ok (body, headers)
    | UnicodeDecodeError => Raise (ValueError "'utf-8' codec can't decode")
    end in
  res_bind fwd (fun '(b, h) => Ok (b, foldr delete h hop_by_hop)).

(** The upstream answer.  httpx decodes all header values as ASCII,
    else as UTF-8, else as latin-1, so a value can hold characters above
    U+00FF; [response.text] replaces undecodable bytes, so it holds no
    lone surrogate. *)
Record upstream_reply : Type := mkReply {
  up_status : Z;
  up_json : option json;              (* response.json(); [None] if it raises *)
  up_text : string;                   (* response.text *)
  up_headers : list (string * string) (* dict(response.headers) *)
}.

(** [response_headers = dict(response.headers)] without [content-length]. *)
Definition response_headers (reply : upstream_reply) : list (string * string) :=
  filter (fun kv => negb (String.eqb kv.1 "content-length")) (up_headers reply).

(** [client.post(self.upstream_dcr_endpoint, ...)]. *)
Variable upstream_post : list byte -> gmap string string -> res upstream_reply.
(** [self._update_client_type(client_id, app_type="native")]. *)
Variable update_client_type : json -> bool.

(** The [except Exception] answer.  Its description is [str(e)] of an
    exception of the proxy or of httpx, text without lone surrogates, so
    it renders. *)
Definition server_error (e : exn) : response :=
  Response 500
    (JObj [("error", JStr "server_error"); ("error_description", JStr (exn_str e))]) [].

(** The 2xx branch: capture the secret, convert the client, build the
    response body. *)
Definition registered (cfg : config) (reply : upstream_reply) : M response := fun s =>
  match up_json reply with
  | None => (Raise (ValueError "JSONDecodeError"), s)
  | Some (JObj client_data) =>
      let client_id := default JNull (dget "client_id" client_data) in
      let client_secret := default JNull (dget "client_secret" client_data) in
      let s1 := if truthy client_secret then capture_secret cfg client_secret s else s in
      let client_data' :=
        if opt_truthy (mgmt_client_id cfg) && update_client_type client_id then
          dset "app_type" (JStr "native")
            (dset "token_endpoint_auth_method" (JStr "none")
               (if dmem "client_secret" client_data
                then ddel "client_secret" client_data else client_data))
        else client_data in
      (json_response (up_status reply) (JObj client_data') (response_headers reply), s1)
  | Some _ => (Raise (OtherError "AttributeError" "object has no attribute 'get'"), s)
  end.

Definition register_client (cfg : config) (body : list byte)
    (raw_headers : list (string * string)) : M response := fun s =>
  let attempt : res response * state :=
    match prepare_forward body raw_headers with
    | Raise e => (Raise e, s)
    | Ok (modified_body, headers) =>
        match upstream_post modified_body headers with
        | Raise e => (Raise e, s)
        | Ok reply =>
            if Z.eqb (up_status reply) 200 || Z.eqb (up_status reply) 201
            then registered cfg reply s
            (* no header, and a text without lone surrogates: it renders *)
            else (Ok (Response (up_status reply)
                        (JObj [("error", JStr "registration_failed");
                               ("error_description", JStr (up_text reply))]) []), s)
        end
    end in
  match attempt with
  | (Ok r, s') => (Ok r, s')
  | (Raise e, s') => (Ok (server_error e), s')
  end.

End Dcr.

(* ------------------------------------------------------------------ *)
(** ** load_oidc_config_from_file *)

(** A search path that exists and is a file: what [yaml.safe_load]
    returns for it (an empty document is [JNull]), or an exception while
    opening or parsing it, which is logged before the search goes on. *)
Inductive cfg_file : Type :=
| CfgLoaded (v : json)
| CfgUnreadable.

Definition config_search_paths (config_path : option string) : list string :=
  (match config_path with
   | Some p => if String.eqb p "" then [] else [p]
   | None => []
   end) ++ ["/etc/mcp/oidc.yaml"; "/config/oidc.yaml"; "./oidc.yaml"].

(** The loop over the search paths; [JNull] is Python's [None]. *)
Fixpoint first_config (fs : gmap string cfg_file) (paths : list string) : json :=
  match paths with
  | [] => JNull
  | path :: paths' =>
      match fs !! path with
      | Some (CfgLoaded config) => config
      | Some CfgUnreadable => first_config fs paths'
      | None => first_config fs paths'
      end
  end.

Definition load_oidc_config_from_file (fs : gmap string cfg_file)
    (config_path : option string) : json :=
  first_config fs (config_search_paths config_path).

(* ------------------------------------------------------------------ *)
(** ** The Auth0 Management API: _get_management_api_token and
       _update_client_type *)

(** [str(v)] in an f-string. *)
Definition py_str (v : json) : string :=
  match v with JStr s => s | _ => py_repr v end.

Section Mgmt.

(** [client.post(url, json=body)], [raise_for_status()] and
    [response.json()]. *)
Variable token_post : string -> json -> res json.
(** [client.patch(url, headers=..., json=...)]: the status code. *)
Variable patch_client : string -> list (string * string) -> json -> res Z.

(** [OIDCAuthProvider._get_management_api_token]; [mgmt_client_secret]
    is the provider's attribute of that name. *)
Definition get_management_api_token (cfg : config) (mgmt_client_secret : option string)
    : res json :=
  if negb (opt_truthy (mgmt_client_id cfg)) then
    Raise (ValueError "AUTH0_MGMT_CLIENT_ID not configured - cannot get Management API token")
  else if negb (opt_truthy mgmt_client_secret) then
    Raise (ValueError "AUTH0_MGMT_CLIENT_SECRET not configured - cannot get Management API token")
  else
    let domain := py_rstrip "/" (issuer cfg) in
    let audience := domain +:+ "/api/v2/" in
    res_bind
      (token_post (domain +:+ "/oauth/token")
         (JObj [("grant_type", JStr "client_credentials");
                ("client_id", JStr (default "" (mgmt_client_id cfg)));
                ("client_secret", JStr (default "" mgmt_client_secret));
                ("audience", JStr audience)]))
      (fun body =>
         match body with
         | JObj kv =>
             match dget "access_token" kv with
             | Some access_token => Ok access_token
             | None => Raise (OtherError "KeyError" "access_token")
             end
         | _ => Raise (OtherError "TypeError" "indices must be integers")
         end).

(** [OIDCAuthProvider._update_client_type]: every exception is caught
    and gives [False]. *)
Definition update_client_type (cfg : config) (mgmt_client_secret : option string)
    (client_id : json) (app_type : string) : bool :=
  match get_management_api_token cfg mgmt_client_secret with
  | Raise _ => false
  | Ok access_token =>
      let domain := py_rstrip "/" (issuer cfg) in
      let patch_data :=
        JObj [("app_type", JStr app_type);
              ("token_endpoint_auth_method", JStr "none");
              ("jwt_configuration", JObj [("alg", JStr "RS256")])] in
      match patch_client (domain +:+ "/api/v2/clients/" +:+ py_str client_id)
              [("Authorization", "Bearer " +:+ py_str access_token);
               ("Content-Type", "application/json")]
              patch_data with
      | Ok status_code => Z.eqb status_code 200
      | Raise _ => false
      end
  end.

End Mgmt.

(* ------------------------------------------------------------------ *)
(** ** Discovery: _discover_jwks_uri and the DCR endpoint in __init__ *)

(** A line break. *)
Definition nl : string := String (ascii_of_nat 10) EmptyString.

(** [OIDCAuthProvider._discover_jwks_uri], given the well-known URL and
    the outcome of the GET, [raise_for_status()] and [response.json()]. *)
Definition discover_jwks_uri (well_known_url : string) (reply : res json) : res json :=
  let wrap (e : exn) : res json :=
    Raise (ValueError ("Failed to discover JWKS URI from " +:+ well_known_url +:+ ": " +:+
                       exn_str e +:+ nl +:+
                       "You can manually set OIDC_JWKS_URI environment variable.")) in
  match reply with
  | Raise e => wrap e
  | Ok (JObj config) =>
      match dget "jwks_uri" config with
      | Some jwks_uri =>
          if truthy jwks_uri then Ok jwks_uri
          else wrap (ValueError ("OIDC configuration at " +:+ well_known_url +:+
                                 " does not contain jwks_uri"))
      | None =>
          wrap (ValueError ("OIDC configuration at " +:+ well_known_url +:+
                            " does not contain jwks_uri"))
      end
  | Ok _ => wrap (OtherError "AttributeError" "object has no attribute 'get'")
  end.

(** The upstream DCR endpoint computed at the end of
    [OIDCAuthProvider.__init__] ([JNull] is [None]), given
    [self.dcr_proxy_url] and the outcome of [httpx.get(well_known_url)]:
    its status code and [response.json()]. *)
Definition discover_dcr_endpoint (dcr_proxy_url : option string)
    (reply : res (Z * res json)) : json :=
  let proxy_fallback :=
    if opt_truthy dcr_proxy_url then JStr (default "" dcr_proxy_url) else JNull in
  match reply with
  | Raise _ => proxy_fallback
  | Ok (status_code, body) =>
      if Z.eqb status_code 200 then
        match body with
        | Ok (JObj upstream_config) =>
            match dget "registration_endpoint" upstream_config with
            | Some ep => if truthy ep then ep else proxy_fallback
            | None => proxy_fallback
            end
        | Ok _ => proxy_fallback      (* [.get] raises inside the [try] *)
        | Raise _ => proxy_fallback
        end
      else JNull
  end.

(* ------------------------------------------------------------------ *)
(** ** get_metadata_routes *)

(** [self.public_url.rstrip('/') if self.public_url else self.issuer] *)
Definition advertised_issuer (cfg : config) : string :=
  match public_url cfg with
  | Some pu => if String.eqb pu "" then issuer cfg else py_rstrip "/" pu
  | None => issuer cfg
  end.

(** The [registration_endpoint] entry both metadata documents add when
    [self.upstream_dcr_endpoint] is set. *)
Definition add_registration (cfg : config) (upstream_dcr_endpoint : json)
    (metadata : list (string * json)) : list (string * json) :=
  if truthy upstream_dcr_endpoint then
    match public_url cfg with
    | Some pu =>
        if String.eqb pu "" then dset "registration_endpoint" (JStr "/register") metadata
        else dset "registration_endpoint" (JStr (py_rstrip "/" pu +:+ "/register")) metadata
    | None => dset "registration_endpoint" (JStr "/register") metadata
    end
  else metadata.

(** [upstream_config.get(key) or fallback] *)
Definition get_or (upstream_config : list (string * json)) (key : string) (fallback : json)
    : json :=
  match dget key upstream_config with
  | Some v => if truthy v then v else fallback
  | None => fallback
  end.

Definition scopes_supported (cfg : config) : list string :=
  let l := match required_scope cfg with
           | Some r => if String.eqb r "" then [] else [r]
           | None => []
           end in
  if existsb (String.eqb "openid") l then l else l ++ ["openid"].

(** The [oauth_metadata] handler, given [self.jwks_uri],
    [self.upstream_dcr_endpoint] and the outcome of the GET of the
    issuer's OpenID configuration (status code and [response.json()]). *)
Definition oauth_metadata (cfg : config) (jwks_uri upstream_dcr_endpoint : json)
    (reply : res (Z * res json)) : res json :=
  let upstream_config :=
    match reply with
    | Ok (status_code, Ok j) => if Z.eqb status_code 200 then j else JObj []
    | _ => JObj []
    end in
  match upstream_config with
  | JObj uc =>
      let auth0 := str_contains "auth0.com" (issuer cfg) in
      let token_endpoint :=
        get_or uc "token_endpoint"
          (JStr (if auth0 then issuer cfg +:+ "/oauth/token"
                 else issuer cfg +:+ "/protocol/openid-connect/token")) in
      let authorization_endpoint :=
        get_or uc "authorization_endpoint"
          (JStr (if auth0 then issuer cfg +:+ "/authorize"
                 else issuer cfg +:+ "/protocol/openid-connect/auth")) in
      Ok (JObj (add_registration cfg upstream_dcr_endpoint
        [("issuer", JStr (advertised_issuer cfg));
         ("authorization_endpoint", authorization_endpoint);
         ("token_endpoint", token_endpoint);
         ("jwks_uri", jwks_uri);
         ("scopes_supported", JArr (map JStr (scopes_supported cfg)));
         ("response_types_supported", JArr [JStr "code"]);
         ("grant_types_supported", JArr [JStr "authorization_code"; JStr "client_credentials"]);
         ("token_endpoint_auth_methods_supported",
            JArr [JStr "client_secret_basic"; JStr "client_secret_post"]);
         ("subject_types_supported", JArr [JStr "public"]);
         ("id_token_signing_alg_values_supported", JArr [JStr "RS256"])]))
  | _ => Raise (OtherError "AttributeError" "object has no attribute 'get'")
  end.

(** The [protected_resource_metadata] handler. *)
Definition protected_resource_metadata (cfg : config) (upstream_dcr_endpoint : json) : json :=
  JObj (add_registration cfg upstream_dcr_endpoint
    [("resource", JStr (audience cfg));
     ("authorization_servers", JArr [JStr (advertised_issuer cfg)]);
     ("bearer_methods_supported", JArr [JStr "header"]);
     ("scopes_supported",
        JArr [JStr (match required_scope cfg with
                    | Some r => if String.eqb r "" then "openid" else r
                    | None => "openid"
                    end)])]).

(** The routes [get_metadata_routes] returns: path and method. *)
Definition get_metadata_routes (upstream_dcr_endpoint : json) : list (string * string) :=
  [("/.well-known/oauth-authorization-server", "GET");
   ("/.well-known/oauth-protected-resource", "GET")] ++
  (if truthy upstream_dcr_endpoint then [("/register", "POST")] else []).

(* ------------------------------------------------------------------ *)
(** ** Sequences of get_jwks calls *)

Definition set_clock (t : Z) (s : state) : state :=
  mkState (jwks s) (last_fetch s) t (net s) (fetches s)
          (client_secrets s) (files s) (readonly s).

(** [get_jwks] called at each of the given times, in order; the first
    exception ends the sequence. *)
Fixpoint get_jwks_calls (ttl : Z) (times : list Z) : M (list json) :=
  match times with
  | [] => mret []
  | t :: times' => fun s =>
      match get_jwks ttl (set_clock t s) with
      | (Ok j, s1) =>
          match get_jwks_calls ttl times' s1 with
          | (Ok js, s2) => (Ok (j :: js), s2)
          | (Raise e, s2) => (Raise e, s2)
          end
      | (Raise e, s1) => (Raise e, s1)
      end
  end.

Definition initial_state (replies : list (option json)) : state :=
  mkState JNull 0 0 replies 0 [] ∅ [].

(* ================================================================== *)
(** * Theorems *)

(** ** Text lemmas *)

Lemma str_app_cons (x : ascii) (a b : string) : String x a +:+ b = String x (a +:+ b).
Proof. reflexivity. Qed.
Lemma str_app_nil_l (a : string) : "" +:+ a = a.
Proof. reflexivity. Qed.
Lemma str_app_assoc (a b c : string) : (a +:+ b) +:+ c = a +:+ (b +:+ c).
Proof.
  induction a as [| x a IH]; [reflexivity |].
  rewrite !str_app_cons, IH. reflexivity.
Qed.
Lemma str_app_nil_r (a : string) : a +:+ "" = a.
Proof. induction a as [| x a IH]; [reflexivity |]. rewrite str_app_cons, IH. reflexivity. Qed.
Lemma list_ascii_of_string_app (a b : string) :
  list_ascii_of_string (a +:+ b) = list_ascii_of_string a ++ list_ascii_of_string b.
Proof.
  induction a as [| x a IH]; [reflexivity |].
  rewrite str_app_cons. simpl. rewrite IH. reflexivity.
Qed.

Lemma py_chars_app_aux n : forall a b, (String.length a <= n)%nat ->
  complete_text a = true -> py_chars (a +:+ b) = py_chars a ++ py_chars b.
Proof.
  induction n as [| n IH]; intros a b Hlen Hc.
  { destruct a; [reflexivity | simpl in Hlen; lia]. }
  destruct a as [| c a1]; [reflexivity |].
  unfold complete_text in Hc. rewrite str_app_cons. cbn [py_chars] in *.
  destruct (lead_len c) as [|[|[|[|[|k]]]]] eqn:E.
  all: try (cbn [forallb] in Hc; apply andb_prop in Hc as [_ Hc];
            simpl in Hlen; rewrite (IH a1 b) by (auto with arith || exact Hc); reflexivity).
  - destruct a1 as [| c1 a2].
    + cbn in Hc. rewrite E in Hc. discriminate.
    + rewrite str_app_cons. cbn [forallb] in Hc. apply andb_prop in Hc as [_ Hc].
      simpl in Hlen. rewrite (IH a2 b) by (lia || exact Hc). reflexivity.
  - destruct a1 as [| c1 [| c2 a3]].
    + cbn in Hc. rewrite E in Hc. discriminate.
    + cbn in Hc. rewrite E in Hc. discriminate.
    + rewrite !str_app_cons. cbn [forallb] in Hc. apply andb_prop in Hc as [_ Hc].
      simpl in Hlen. rewrite (IH a3 b) by (lia || exact Hc). reflexivity.
  - destruct a1 as [| c1 [| c2 [| c3 a4]]].
    + cbn in Hc. rewrite E in Hc. discriminate.
    + cbn in Hc. rewrite E in Hc. discriminate.
    + cbn in Hc. rewrite E in Hc. discriminate.
    + rewrite !str_app_cons. cbn [forallb] in Hc. apply andb_prop in Hc as [_ Hc].
      simpl in Hlen. rewrite (IH a4 b) by (lia || exact Hc). reflexivity.
Qed.

Lemma py_chars_app a b :
  complete_text a = true -> py_chars (a +:+ b) = py_chars a ++ py_chars b.
Proof. apply (py_chars_app_aux (String.length a)). lia. Qed.

Lemma complete_text_app a b :
  complete_text a = true -> complete_text b = true -> complete_text (a +:+ b) = true.
Proof.
  intros Ha Hb. unfold complete_text. rewrite py_chars_app by exact Ha.
  rewrite forallb_app. unfold complete_text in Ha, Hb. rewrite Ha, Hb. reflexivity.
Qed.

Lemma code_points_app a b :
  complete_text a = true -> code_points (a +:+ b) = code_points a ++ code_points b.
Proof. intros Ha. unfold code_points. rewrite py_chars_app by exact Ha. apply map_app. Qed.

(** Each piece [py_chars] cuts is a whole sequence or a single byte. *)
Lemma py_chars_piece_aux n : forall s ch, (String.length s <= n)%nat ->
  In ch (py_chars s) ->
  exists c rest, ch = String c rest /\ (full_char ch = true \/ rest = "").
Proof.
  induction n as [| n IH]; intros s ch Hlen Hin.
  { destruct s; [destruct Hin | simpl in Hlen; lia]. }
  destruct s as [| c s1]; [destruct Hin |].
  cbn [py_chars] in Hin.
  destruct (lead_len c) as [|[|[|[|[|k]]]]] eqn:E;
  repeat match type of Hin with
  | In _ (match ?x with _ => _ end) => destruct x
  end;
  simpl in Hlen;
  (destruct Hin as [<- | Hin];
   [ eexists _, _; split; [reflexivity |];
     first [right; reflexivity | left; cbn; rewrite E; reflexivity]
   | eapply IH; [| exact Hin]; simpl; lia ]).
Qed.

Lemma py_chars_piece s ch :
  In ch (py_chars s) ->
  exists c rest, ch = String c rest /\ (full_char ch = true \/ rest = "").
Proof. apply (py_chars_piece_aux (String.length s)). lia. Qed.

Lemma lead_len_range c : (1 <= lead_len c <= 4)%nat.
Proof.
  unfold lead_len.
  destruct (_ <? 192)%nat; [lia |]. destruct (_ <? 224)%nat; [lia |].
  destruct (_ <? 240)%nat; lia.
Qed.

Lemma py_chars_full ch : full_char ch = true -> py_chars ch = [ch].
Proof.
  destruct ch as [| c r]; [discriminate |]. unfold full_char. cbn [String.length].
  cbn [py_chars]. pose proof (lead_len_range c) as Hr.
  destruct (lead_len c) as [|[|[|[|[|k]]]]]; try lia;
  intros H; apply Nat.eqb_eq in H;
  destruct r as [| c1 [| c2 [| c3 [| c4 r]]]]; simpl in H; try lia; reflexivity.
Qed.

Lemma str_concat_py_chars_aux n : forall s, (String.length s <= n)%nat ->
  str_concat (py_chars s) = s.
Proof.
  induction n as [| n IH]; intros s Hlen.
  { destruct s; [reflexivity | simpl in Hlen; lia]. }
  destruct s as [| c s1]; [reflexivity |].
  cbn [py_chars].
  destruct (lead_len c) as [|[|[|[|[|k]]]]];
  repeat match goal with
  | |- str_concat (match ?x with _ => _ end) = _ => destruct x
  end;
  simpl in Hlen; cbn [str_concat fold_right]; rewrite ?str_app_cons;
  f_equal; try f_equal; try f_equal; try f_equal; apply IH; simpl; lia.
Qed.

Lemma str_concat_py_chars s : str_concat (py_chars s) = s.
Proof. apply (str_concat_py_chars_aux (String.length s)). lia. Qed.

Lemma str_app_not_empty a b : b <> "" -> a +:+ b <> "".
Proof. destruct a; [tauto | intros _; rewrite str_app_cons; discriminate]. Qed.

(** Well-formed text whose code points all satisfy [P]. *)
Definition sub_text (P : Z -> Prop) (s : string) : Prop :=
  complete_text s = true /\ forall x, In x (code_points s) -> P x.

Lemma sub_text_app P a b : sub_text P a -> sub_text P b -> sub_text P (a +:+ b).
Proof.
  intros [Ha Pa] [Hb Pb]. split; [apply complete_text_app; assumption |].
  rewrite code_points_app by exact Ha. intros x Hx.
  apply in_app_or in Hx as [Hx | Hx]; auto.
Qed.

Lemma is_ascii_app a b : is_ascii (a +:+ b) = is_ascii a && is_ascii b.
Proof. unfold is_ascii. rewrite list_ascii_of_string_app. apply forallb_app. Qed.

Lemma sub_text_ascii (P : Z -> Prop) s :
  (forall x, 0 <= x < 128 -> P x) -> is_ascii s = true -> sub_text P s.
Proof.
  intros HP. induction s as [| c s IH]; intros H.
  - split; [reflexivity | intros x []].
  - unfold is_ascii in H. simpl in H. apply andb_prop in H as [Hc Hs].
    apply Nat.ltb_lt in Hc.
    assert (E : lead_len c = 1%nat).
    { unfold lead_len. rewrite (proj2 (Nat.ltb_lt _ 192)) by lia. reflexivity. }
    destruct (IH Hs) as [Hc' Hp].
    assert (Hpc : py_chars (String c s) = String c "" :: py_chars s).
    { cbn [py_chars]. rewrite E. reflexivity. }
    split.
    + unfold complete_text. rewrite Hpc. simpl. rewrite E. exact Hc'.
    + unfold code_points. rewrite Hpc. intros x [<- | Hx]; [| apply Hp, Hx].
      apply HP. unfold code_point, byte_val. lia.
Qed.

Lemma hex_fixed_ascii w n : is_ascii (hex_fixed w n) = true.
Proof.
  revert n. induction w as [| w IH]; intros n; [reflexivity |].
  simpl. rewrite is_ascii_app, IH. simpl.
  unfold hex_digit, ascii_of_Z.
  assert (Hm : 0 <= n mod 16 < 16) by (apply Z.mod_pos_bound; lia).
  unfold is_ascii. simpl. rewrite andb_true_r. apply Nat.ltb_lt.
  destruct (n mod 16 <? 10) eqn:E.
  - apply Z.ltb_lt in E. rewrite nat_ascii_embedding; lia.
  - apply Z.ltb_ge in E. rewrite nat_ascii_embedding; lia.
Qed.

Lemma sub_text_full (P : Z -> Prop) ch :
  full_char ch = true -> P (code_point ch) -> sub_text P ch.
Proof.
  intros Hf Hp. unfold sub_text, complete_text, code_points.
  rewrite py_chars_full by exact Hf. simpl. rewrite Hf.
  split; [reflexivity | intros x [<- | []]; exact Hp].
Qed.

Lemma sub_text_escape (P : Z -> Prop) ch :
  (forall x, 0 <= x < 128 -> P x) -> full_char ch = true -> P (code_point ch) ->
  sub_text P (json_escape_char ch).
Proof.
  intros HP Hf Hp. unfold json_escape_char.
  repeat match goal with
  | |- sub_text _ (if ?b then _ else _) => destruct b
  end;
  try (apply sub_text_ascii; [exact HP | reflexivity]).
  - apply sub_text_ascii; [exact HP |]. rewrite !is_ascii_app, hex_fixed_ascii. reflexivity.
  - apply sub_text_full; assumption.
Qed.

Lemma sub_text_concat_escape (P : Z -> Prop) l :
  (forall x, 0 <= x < 128 -> P x) ->
  (forall ch, In ch l -> full_char ch = true /\ P (code_point ch)) ->
  sub_text P (str_concat (map json_escape_char l)).
Proof.
  intros HP. induction l as [| ch l IH]; intros Hl.
  - split; [reflexivity | intros x []].
  - cbn [map str_concat fold_right]. fold (str_concat (map json_escape_char l)).
    destruct (Hl ch (or_introl eq_refl)) as [Hf Hp].
    apply sub_text_app; [apply sub_text_escape; assumption |].
    apply IH. intros ch' Hin. apply Hl. right. exact Hin.
Qed.

Lemma sub_text_json_str (P : Z -> Prop) m :
  (forall x, 0 <= x < 128 -> P x) -> sub_text P m -> sub_text P (json_str m).
Proof.
  intros HP [Hc Hp]. unfold json_str.
  apply sub_text_app; [apply sub_text_ascii; [exact HP | reflexivity] |].
  apply sub_text_app; [| apply sub_text_ascii; [exact HP | reflexivity]].
  apply sub_text_concat_escape; [exact HP |].
  intros ch Hin. split.
  - unfold complete_text in Hc. rewrite forallb_forall in Hc. apply Hc, Hin.
  - apply Hp. unfold code_points. apply in_map, Hin.
Qed.

Lemma first_bad_none bad i l :
  (forall x, In x l -> bad x = false) -> first_bad bad i l = None.
Proof.
  revert i. induction l as [| x l IH]; intros i H; [reflexivity |].
  simpl. rewrite (H x (or_introl eq_refl)). apply IH. intros y Hy. apply H. right. exact Hy.
Qed.

Lemma first_bad_some bad i l x :
  In x l -> bad x = true -> first_bad bad i l <> None.
Proof.
  revert i. induction l as [| y l IH]; intros i Hin Hb; [destruct Hin |].
  simpl. destruct (bad y) eqn:E; [discriminate |].
  destruct Hin as [-> | Hin]; [congruence | apply IH; assumption].
Qed.

Lemma encode_error_none codec reason bad s :
  (forall x, In x (code_points s) -> bad x = false) ->
  encode_error codec reason bad s = None.
Proof. intros H. unfold encode_error. rewrite first_bad_none by exact H. reflexivity. Qed.

Lemma encode_error_some codec reason bad s x :
  In x (code_points s) -> bad x = true -> encode_error codec reason bad s <> None.
Proof.
  intros Hin Hb. unfold encode_error.
  pose proof (first_bad_some bad 0 _ x Hin Hb) as H.
  destruct (first_bad bad 0 (code_points s)) as [[[i k] n] |]; [discriminate | congruence].
Qed.

Lemma header_error_some hs k v :
  In (k, v) hs -> latin1_encode_error v <> None -> header_error hs <> None.
Proof.
  induction hs as [| [k' v'] hs IH]; intros Hin Hv; [destruct Hin |].
  simpl. destruct (latin1_encode_error v') eqn:E; [discriminate |].
  destruct Hin as [Heq | Hin]; [injection Heq as -> ->; congruence | apply IH; assumption].
Qed.

Lemma header_error_none hs :
  (forall k v, In (k, v) hs -> latin1_text v = true) -> header_error hs = None.
Proof.
  induction hs as [| [k v] hs IH]; intros H; [reflexivity |].
  simpl. unfold latin1_encode_error.
  rewrite encode_error_none.
  - apply IH. intros k' v' Hin. apply (H k' v'). right. exact Hin.
  - intros x Hx. pose proof (H k v (or_introl eq_refl)) as Hl.
    unfold latin1_text in Hl. rewrite forallb_forall in Hl.
    apply Hl, Z.leb_le in Hx. unfold above_latin1. apply Z.leb_gt. lia.
Qed.

Lemma forallb_false_ex {A} (f : A -> bool) l :
  forallb f l = false -> exists x, In x l /\ f x = false.
Proof.
  induction l as [| x l IH]; [discriminate |]. simpl. intros H.
  destruct (f x) eqn:E; [destruct (IH H) as (y & Hy & Hf); exists y; auto | exists x; auto].
Qed.

(** [JSONResponse] either builds the response it is given or raises a
    [UnicodeEncodeError]. *)
Lemma json_response_cases st b hs :
  json_response st b hs = Ok (Response st b hs) \/
  exists msg, json_response st b hs = Raise (ValueError msg).
Proof.
  unfold json_response.
  destruct (utf8_encode_error (py_dumps b)) as [msg |]; [right; eexists; reflexivity |].
  destruct (header_error hs) as [msg |]; [right; eexists; reflexivity | left; reflexivity].
Qed.

Lemma json_response_header_fails st b hs k v :
  In (k, v) hs -> latin1_text v = false ->
  exists msg, json_response st b hs = Raise (ValueError msg).
Proof.
  intros Hin Hv. unfold latin1_text in Hv.
  apply forallb_false_ex in Hv. destruct Hv as (x & Hx & Hb). apply Z.leb_gt in Hb.
  assert (He : latin1_encode_error v <> None).
  { apply (encode_error_some _ _ _ _ x Hx). unfold above_latin1. apply Z.leb_le. lia. }
  pose proof (header_error_some hs k v Hin He) as Hh.
  unfold json_response.
  destruct (utf8_encode_error (py_dumps b)) as [msg |]; [eexists; reflexivity |].
  destruct (header_error hs) as [msg |]; [eexists; reflexivity | congruence].
Qed.

(** ** C1 *)

(** C1: [verify_token] splits the token on '.' before any network
    access.  Five segments raise the JWE error and leave the state (and
    so the fetch counter and the cache) untouched; a count other than 3
    or 5 raises the format error naming the count, state untouched; only
    three segments go on to [get_jwks] and the JWT checks. *)
Theorem verify_token_classifies_before_fetch jwt_decode cfg token s :
  let n := length (py_split_char "." token) in
  (n = 5%nat ->
     verify_token jwt_decode cfg token s = (Raise (JoseError jwe_detected_msg ""), s)) /\
  (n <> 3%nat -> n <> 5%nat ->
     verify_token jwt_decode cfg token s =
       (Raise (JoseError ("Invalid token format: expected 3 parts (JWT), got "
                          +:+ py_str_nat n) ""), s)) /\
  (n = 3%nat ->
     verify_token jwt_decode cfg token s =
       (jwks_data ← get_jwks (cache_ttl cfg);
        lift_res (verify_jwt jwt_decode cfg token jwks_data)) s).
Proof.
  cbv zeta. unfold verify_token.
  repeat split; intros Hn.
  - rewrite Hn. reflexivity.
  - intros H5. apply Nat.eqb_neq in Hn, H5. rewrite H5, Hn. reflexivity.
  - rewrite Hn. reflexivity.
Qed.

Definition sample_cfg : config :=
  mkConfig "https://idp.example.com/" "mcp-api" None None 3600 None None
           "/etc/mcp/secrets/dcr-captured-secrets.yaml".

Definition no_decode : string -> json -> res (list (string * json)) :=
  fun _ _ => Raise (JoseError "bad_signature" "bad signature").

Lemma verify_token_classifies_before_fetch_witness :
  verify_token no_decode sample_cfg "h.k.iv.ct.tag" (initial_state [])
    = (Raise (JoseError jwe_detected_msg ""), initial_state []) /\
  verify_token no_decode sample_cfg "abc" (initial_state [])
    = (Raise (JoseError (format_error_msg 1) ""), initial_state []).
Proof.
  split.
  - apply (verify_token_classifies_before_fetch no_decode sample_cfg "h.k.iv.ct.tag"
             (initial_state [])). reflexivity.
  - apply (verify_token_classifies_before_fetch no_decode sample_cfg "abc"
             (initial_state [])); cbv; discriminate.
Defined.

(** ** C3 *)

Lemma get_jwks_fresh ttl s :
  truthy (jwks s) = true -> clock s - last_fetch s < ttl ->
  get_jwks ttl s = (Ok (jwks s), s).
Proof.
  intros Ht Hlt. unfold get_jwks. rewrite Ht.
  apply Z.ltb_lt in Hlt. rewrite Hlt. reflexivity.
Qed.

Lemma get_jwks_refetch ttl s :
  (truthy (jwks s) = false \/ ttl <= clock s - last_fetch s) ->
  get_jwks ttl s =
    match net s with
    | Some j :: rest =>
        (Ok j, mkState j (clock s) (clock s) rest (S (fetches s))
                       (client_secrets s) (files s) (readonly s))
    | _ =>
        (Raise (OtherError "HTTPStatusError" "JWKS fetch failed"),
         mkState (jwks s) (last_fetch s) (clock s) (tl (net s)) (S (fetches s))
                 (client_secrets s) (files s) (readonly s))
    end.
Proof.
  intros H. unfold get_jwks.
  assert (Hf : truthy (jwks s) && Z.ltb (clock s - last_fetch s) ttl = false).
  { destruct H as [H | H]; [rewrite H; reflexivity |].
    apply andb_false_intro2, Z.ltb_ge. exact H. }
  rewrite Hf. unfold fetch_step.
  destruct (net s) as [| [j |] rest]; reflexivity.
Qed.

Lemma get_jwks_calls_fresh ttl times s :
  truthy (jwks s) = true ->
  Forall (fun t => t - last_fetch s < ttl) times ->
  fst (get_jwks_calls ttl times s) = Ok (repeat (jwks s) (length times)) /\
  jwks (snd (get_jwks_calls ttl times s)) = jwks s /\
  last_fetch (snd (get_jwks_calls ttl times s)) = last_fetch s /\
  fetches (snd (get_jwks_calls ttl times s)) = fetches s /\
  net (snd (get_jwks_calls ttl times s)) = net s.
Proof.
  revert s. induction times as [| t times IH]; intros s Ht Hall.
  - repeat split.
  - inversion Hall as [| ? ? Hlt Hrest]; subst.
    simpl get_jwks_calls.
    rewrite (get_jwks_fresh ttl (set_clock t s)) by (simpl; assumption).
    destruct (IH (set_clock t s)) as (H1 & H2 & H3 & H4 & H5); try assumption.
    destruct (get_jwks_calls ttl times (set_clock t s)) as [[js | e] s2].
    + simpl in *. inversion H1; subst. repeat split; assumption.
    + discriminate H1.
Qed.

(** C3 (as amended): while the cached document is truthy and
    [now - last_fetch < cache_ttl], [get_jwks] returns it with no fetch;
    on a stale, absent ([None]) or empty cached document it issues
    exactly one GET, replaces document and timestamp together and returns
    the new document; a failed GET raises and leaves the cache as it was.
    So the calls made within the TTL window that follows a successful
    fetch of a non-empty document issue exactly that one fetch. *)
Theorem get_jwks_cache_contract ttl s :
  (truthy (jwks s) = true -> clock s - last_fetch s < ttl ->
     get_jwks ttl s = (Ok (jwks s), s)) /\
  ((truthy (jwks s) = false \/ ttl <= clock s - last_fetch s) ->
     (forall j rest, net s = Some j :: rest ->
        get_jwks ttl s =
          (Ok j, mkState j (clock s) (clock s) rest (S (fetches s))
                         (client_secrets s) (files s) (readonly s))) /\
     ((forall r, hd_error (net s) <> Some (Some r)) ->
        exists e, get_jwks ttl s =
          (Raise e, mkState (jwks s) (last_fetch s) (clock s) (tl (net s))
                            (S (fetches s)) (client_secrets s) (files s) (readonly s)))) /\
  (forall t0 times j rest,
     (truthy (jwks s) = false \/ ttl <= t0 - last_fetch s) ->
     net s = Some j :: rest -> truthy j = true ->
     Forall (fun t => t - t0 < ttl) times ->
     fst (get_jwks_calls ttl (t0 :: times) s) = Ok (repeat j (S (length times))) /\
     fetches (snd (get_jwks_calls ttl (t0 :: times) s)) = S (fetches s)).
Proof.
  split; [| split].
  - apply get_jwks_fresh.
  - intros Hst. rewrite (get_jwks_refetch ttl s Hst). split.
    + intros j rest ->. reflexivity.
    + intros Hhd. destruct (net s) as [| [j |] rest]; simpl in *.
      * eexists. reflexivity.
      * exfalso. apply (Hhd j). reflexivity.
      * eexists. reflexivity.
  - intros t0 times j rest Hst Hnet Hj Hall.
    simpl get_jwks_calls.
    rewrite (get_jwks_refetch ttl (set_clock t0 s)) by exact Hst.
    simpl net. rewrite Hnet.
    set (s1 := mkState j (clock (set_clock t0 s)) (clock (set_clock t0 s)) rest
                 (S (fetches (set_clock t0 s))) (client_secrets (set_clock t0 s))
                 (files (set_clock t0 s)) (readonly (set_clock t0 s))).
    destruct (get_jwks_calls_fresh ttl times s1) as (H1 & _ & _ & H4 & _);
      [exact Hj | exact Hall |].
    destruct (get_jwks_calls ttl times s1) as [[js | e] s2]; simpl in *.
    + inversion H1; subst. split; [reflexivity | exact H4].
    + discriminate H1.
Qed.

Lemma get_jwks_cache_contract_witness :
  fst (get_jwks_calls 3600 [10; 20; 3000] (initial_state [Some (JObj [("keys", JArr [])])]))
    = Ok (repeat (JObj [("keys", JArr [])]) 3) /\
  fetches (snd (get_jwks_calls 3600 [10; 20; 3000]
                  (initial_state [Some (JObj [("keys", JArr [])])]))) = 1%nat.
Proof.
  apply (proj2 (proj2 (get_jwks_cache_contract 3600
                         (initial_state [Some (JObj [("keys", JArr [])])])))
           10 [20; 3000] (JObj [("keys", JArr [])]) []).
  - left. reflexivity.
  - reflexivity.
  - reflexivity.
  - repeat constructor; simpl; lia.
Defined.

(** C3 as stated fails: a successful fetch of the empty document [{}]
    is cached, but the truthiness test treats it as absent, so a second
    call within the TTL window fetches again. *)
Lemma get_jwks_empty_document_refetched :
  fst (get_jwks_calls 3600 [0; 1] (initial_state [Some (JObj []); Some (JObj [])]))
    = Ok [JObj []; JObj []] /\
  fetches (snd (get_jwks_calls 3600 [0; 1]
                  (initial_state [Some (JObj []); Some (JObj [])]))) = 2%nat.
Proof. split; reflexivity. Qed.

(** ** Middleware lemmas *)

Lemma prefix_append p x : String.prefix p (p +:+ x) = true.
Proof.
  induction p as [| c p IH]; [destruct x; reflexivity |]. simpl.
  destruct (ascii_dec c c) as [_ | Hn]; [exact IH | contradiction].
Qed.

Lemma dispatch_excluded jwt_decode call_next cfg excl req s :
  existsb (fun excluded => String.prefix excluded (req_path req)) (exclude_list excl) = true ->
  dispatch jwt_decode call_next cfg excl req s = (call_next None, s).
Proof. intros H. unfold dispatch. rewrite H. reflexivity. Qed.

Lemma dispatch_not_excluded jwt_decode call_next cfg excl req s :
  (forall e, In e (exclude_list excl) -> String.prefix e (req_path req) = false) ->
  dispatch jwt_decode call_next cfg excl req s =
    match authenticate_request jwt_decode cfg (req_authorization req) s with
    | (Ok claims, s') =>
        match call_next (Some claims) with
        | Ok r => (Ok r, s')
        | Raise e => (handle_auth_error e, s')
        end
    | (Raise e, s') => (handle_auth_error e, s')
    end.
Proof.
  intros H. unfold dispatch.
  assert (Hx : existsb (fun excluded => String.prefix excluded (req_path req))
                       (exclude_list excl) = false).
  { apply not_true_iff_false. intros Hx. apply existsb_exists in Hx.
    destruct Hx as (e & Hin & Hp). rewrite (H e Hin) in Hp. discriminate. }
  rewrite Hx. reflexivity.
Qed.

(** A 401 response whose [WWW-Authenticate] header carries [code]. *)
Definition unauthorized_with (code : string) (r : response) : Prop :=
  status r = 401 /\
  exists h, resp_headers r = [("WWW-Authenticate", h)] /\
            String.prefix (www_auth_prefix code) h = true.

(** The outcome of a dispatch: a 401 with [code]. *)
Definition dispatch_401 (code : string) (out : res response * state) : Prop :=
  match fst out with Ok r => unauthorized_with code r | Raise _ => False end.

Definition generic_500 : response :=
  Response 500
    (JObj [("error", JStr "server_error");
           ("error_description", JStr "Internal authentication error")]) [].

(** What the middleware makes of an exception [e]: a [ValueError] or
    [JoseError] whose message encodes in latin-1 gives a 401 whose
    [WWW-Authenticate] code is chosen from the message; one whose message
    holds a character above U+00FF makes [JSONResponse] raise the
    [UnicodeEncodeError] (a [ValueError]) of that encoding; any other
    exception gives the generic 500. *)
Definition auth_error_answer (e : exn) (out : res response) : Prop :=
  match e with
  | OtherError _ _ => out = Ok generic_500
  | _ =>
      let m := exn_str e in
      let code :=
        match e with
        | ValueError _ => if str_contains "Missing" m then "invalid_request" else "invalid_token"
        | _ => if str_contains "JWE_TOKEN_DETECTED" m then "invalid_client" else "invalid_token"
        end in
      if latin1_text m then
        match out with Ok r => unauthorized_with code r | Raise _ => False end
      else exists msg, out = Raise (ValueError msg)
  end.

Lemma www_auth_prefix_ascii code : is_ascii code = true -> is_ascii (www_auth_prefix code) = true.
Proof. intros H. unfold www_auth_prefix. rewrite !is_ascii_app, H. reflexivity. Qed.

Ltac text_split HP :=
  repeat match goal with
  | |- sub_text _ (json_str _) => apply sub_text_json_str; [exact HP |]
  | |- sub_text _ (_ +:+ _) => apply sub_text_app
  | |- sub_text _ _ =>
      first [ assumption
            | apply sub_text_ascii;
              [exact HP | first [ reflexivity | assumption
                                | apply www_auth_prefix_ascii; assumption ]] ]
  end.

Lemma answer_401 tag code m :
  is_ascii tag = true -> is_ascii code = true -> complete_text m = true ->
  let r := json_response 401 (JObj [("error", JStr tag); ("error_description", JStr m)])
             [("WWW-Authenticate",
               www_auth_prefix code +:+ ", error_description=" +:+ dq +:+ m +:+ dq)] in
  (latin1_text m = true -> match r with Ok r => unauthorized_with code r | Raise _ => False end) /\
  (latin1_text m = false -> exists msg, r = Raise (ValueError msg)).
Proof.
  intros Ht Hcd Hm r.
  set (P := fun x => x < 128 \/ In x (code_points m)).
  assert (HP : forall x, 0 <= x < 128 -> P x) by (intros x Hx; left; lia).
  assert (Hsm : sub_text P m) by (split; [exact Hm | intros x Hx; right; exact Hx]).
  assert (Hhv : sub_text P (www_auth_prefix code +:+ ", error_description=" +:+ dq +:+ m +:+ dq))
    by text_split HP.
  split.
  - intros Hl. unfold latin1_text in Hl. rewrite forallb_forall in Hl.
    assert (Hle : forall x, P x -> x <= 255).
    { intros x [Hx | Hx]; [lia | apply Z.leb_le, Hl, Hx]. }
    assert (Hd : sub_text P (py_dumps (JObj [("error", JStr tag); ("error_description", JStr m)])))
      by (cbn [py_dumps]; text_split HP).
    unfold r, json_response, utf8_encode_error.
    rewrite encode_error_none.
    2: { intros x Hx. apply (proj2 Hd), Hle in Hx. unfold is_surrogate.
         apply andb_false_intro1, Z.leb_gt. lia. }
    rewrite header_error_none.
    2: { intros k v [Heq | []]. injection Heq as <- <-.
         unfold latin1_text. apply forallb_forall. intros x Hx.
         apply (proj2 Hhv), Hle in Hx. apply Z.leb_le, Hx. }
    split; [reflexivity |]. eexists. split; [reflexivity |]. apply prefix_append.
  - intros Hl. unfold r. eapply json_response_header_fails; [left; reflexivity |].
    apply not_true_iff_false. intros Hh.
    unfold latin1_text in Hl, Hh. rewrite forallb_forall in Hh.
    apply forallb_false_ex in Hl. destruct Hl as (x & Hx & Hb).
    assert (Hin : In x (code_points (www_auth_prefix code +:+ ", error_description="
                                       +:+ dq +:+ m +:+ dq))).
    { rewrite code_points_app
        by exact (proj1 (sub_text_ascii P _ HP (www_auth_prefix_ascii code Hcd))).
      rewrite code_points_app by reflexivity.
      rewrite code_points_app by reflexivity.
      rewrite code_points_app by exact Hm.
      apply in_or_app; right; apply in_or_app; right; apply in_or_app; right.
      apply in_or_app; left; exact Hx. }
    apply Hh in Hin. congruence.
Qed.

Lemma ascii_text_latin1 m : is_ascii m = true -> complete_text m = true /\ latin1_text m = true.
Proof.
  intros H. destruct (sub_text_ascii (fun x => x <= 255) m ltac:(intros x Hx; cbv beta; lia) H) as [Hc Hp].
  split; [exact Hc |]. unfold latin1_text. apply forallb_forall. intros x Hx.
  apply Z.leb_le, Hp, Hx.
Qed.

Ltac answer_with tag code m Hc :=
  destruct (answer_401 tag code m eq_refl eq_refl Hc) as [H1 H2];
  destruct (latin1_text m); [apply H1 | apply H2]; reflexivity.

Lemma handle_auth_error_answer e :
  complete_text (exn_str e) = true -> auth_error_answer e (handle_auth_error e).
Proof.
  intros Hc. destruct e as [m | er d | c m]; unfold auth_error_answer.
  - cbv zeta. simpl exn_str in *. unfold handle_auth_error. simpl exn_str.
    destruct (str_contains "Missing" m);
      [answer_with "unauthorized" "invalid_request" m Hc
      | answer_with "unauthorized" "invalid_token" m Hc].
  - cbv zeta. unfold handle_auth_error.
    assert (Hne : String.eqb (exn_str (JoseError er d)) "" = false).
    { apply String.eqb_neq. simpl. apply str_app_not_empty. discriminate. }
    rewrite Hne.
    destruct (str_contains "JWE_TOKEN_DETECTED" (exn_str (JoseError er d)));
      [answer_with "invalid_client" "invalid_client" (exn_str (JoseError er d)) Hc
      | answer_with "invalid_token" "invalid_token" (exn_str (JoseError er d)) Hc].
  - reflexivity.
Qed.

(** ** C4 *)

(** A [ValueError] with an ASCII message gets its 401. *)
Lemma handle_value_error_ascii m :
  is_ascii m = true ->
  match handle_auth_error (ValueError m) with
  | Ok r => unauthorized_with (if str_contains "Missing" m
                               then "invalid_request" else "invalid_token") r
  | Raise _ => False
  end.
Proof.
  intros H. destruct (ascii_text_latin1 m H) as [Hc Hl].
  pose proof (handle_auth_error_answer (ValueError m) Hc) as Ha.
  unfold auth_error_answer in Ha. cbv zeta in Ha. simpl exn_str in Ha.
  rewrite Hl in Ha. exact Ha.
Qed.

(** C4 (as amended): for a request outside the exclusion list,
    [dispatch] answers a missing (absent or empty) Authorization header
    with a 401 carrying error="invalid_request"; a present header that is
    not two whitespace-separated words starting with "Bearer" (any case)
    with error="invalid_token"; a Bearer token of five segments with
    error="invalid_client".  Any other exception raised while verifying
    a Bearer token, or by the downstream handler, is answered as
    [auth_error_answer] says: for a [ValueError] the code is
    "invalid_request" if the message contains "Missing" and
    "invalid_token" otherwise, for a [JoseError] "invalid_client" if its
    message contains "JWE_TOKEN_DETECTED" and "invalid_token" otherwise,
    provided the message encodes in latin-1; a message with a character
    above U+00FF makes [dispatch] itself raise the [UnicodeEncodeError]
    of the [WWW-Authenticate] header; any other exception gives the
    generic 500. *)
Theorem dispatch_error_codes jwt_decode call_next cfg excl req s :
  (forall e, In e (exclude_list excl) -> String.prefix e (req_path req) = false) ->
  ((req_authorization req = None \/ req_authorization req = Some "") ->
     dispatch_401 "invalid_request" (dispatch jwt_decode call_next cfg excl req s)) /\
  (forall h, req_authorization req = Some h -> h <> "" ->
     match py_split_ws h with
     | [scheme; _] => py_lower scheme <> "bearer"
     | _ => True
     end ->
     dispatch_401 "invalid_token" (dispatch jwt_decode call_next cfg excl req s)) /\
  (forall h scheme token,
     req_authorization req = Some h -> h <> "" ->
     py_split_ws h = [scheme; token] -> py_lower scheme = "bearer" ->
     (length (py_split_char "." token) = 5%nat ->
        dispatch_401 "invalid_client" (dispatch jwt_decode call_next cfg excl req s)) /\
     (forall e, fst (verify_token jwt_decode cfg token s) = Raise e ->
        complete_text (exn_str e) = true ->
        auth_error_answer e (fst (dispatch jwt_decode call_next cfg excl req s))) /\
     (forall claims e, fst (verify_token jwt_decode cfg token s) = Ok claims ->
        call_next (Some claims) = Raise e ->
        complete_text (exn_str e) = true ->
        auth_error_answer e (fst (dispatch jwt_decode call_next cfg excl req s)))).
Proof.
  intros Hex. rewrite (dispatch_not_excluded _ _ _ _ _ _ Hex).
  split; [| split].
  - intros [Ha | Ha]; rewrite Ha; unfold dispatch_401; cbn [authenticate_request raise fst];
      apply (handle_value_error_ascii missing_header_msg); reflexivity.
  - intros h Ha Hne Hshape. rewrite Ha. unfold authenticate_request.
    apply String.eqb_neq in Hne. rewrite Hne.
    destruct (py_split_ws h) as [| scheme [| token [| w ws]]];
      [| | apply String.eqb_neq in Hshape; rewrite Hshape |];
      unfold dispatch_401; cbn [raise fst];
      apply (handle_value_error_ascii bad_header_msg); reflexivity.
  - intros h scheme token Ha Hne Hsplit Hb.
    assert (Hauth : authenticate_request jwt_decode cfg (req_authorization req) s
                    = verify_token jwt_decode cfg token s).
    { rewrite Ha. unfold authenticate_request.
      apply String.eqb_neq in Hne. rewrite Hne, Hsplit, Hb. reflexivity. }
    rewrite Hauth. split; [| split].
    + intros H5.
      rewrite (proj1 (verify_token_classifies_before_fetch jwt_decode cfg token s) H5).
      unfold dispatch_401. vm_compute.
      split; [reflexivity |]. eexists. split; reflexivity.
    + intros e Hv Hc. destruct (verify_token jwt_decode cfg token s) as [r s'].
      simpl in Hv. subst r. apply handle_auth_error_answer, Hc.
    + intros claims e Hv Hn Hc. destruct (verify_token jwt_decode cfg token s) as [r s'].
      simpl in Hv. subst r. simpl. rewrite Hn. apply handle_auth_error_answer, Hc.
Qed.

Definition ok_app (claims : option json) : res response :=
  Ok (Response 200 (JObj []) []).

Definition mcp_request (auth : option string) : request := mkRequest "/mcp" auth.

Lemma mcp_not_excluded :
  forall e, In e (exclude_list None) -> String.prefix e (req_path (mcp_request None)) = false.
Proof. intros e He. repeat (destruct He as [<- | He]; [reflexivity |]). destruct He. Qed.

(** A decoder that accepts the token with an [iss] claim of another
    issuer, ending in a character above U+00FF. *)
Definition wide_iss_decode : string -> json -> res (list (string * json)) :=
  fun _ _ => Ok [("iss", JStr "https://other.example/€")].

Definition keyset_state : state := initial_state [Some (JObj [("keys", JArr [])])].

Lemma dispatch_error_codes_witness :
  dispatch_401 "invalid_request"
    (dispatch no_decode ok_app sample_cfg None (mcp_request None) (initial_state [])) /\
  dispatch_401 "invalid_client"
    (dispatch no_decode ok_app sample_cfg None (mcp_request (Some "Bearer a.b.c.d.e"))
              (initial_state [])) /\
  (exists e,
     fst (verify_token wide_iss_decode sample_cfg "h.p.s" keyset_state) = Raise e /\
     latin1_text (exn_str e) = false /\
     auth_error_answer e
       (fst (dispatch wide_iss_decode ok_app sample_cfg None
               (mcp_request (Some "Bearer h.p.s")) keyset_state))).
Proof.
  split; [| split].
  - apply (proj1 (dispatch_error_codes no_decode ok_app sample_cfg None (mcp_request None)
                    (initial_state []) mcp_not_excluded)).
    left. reflexivity.
  - refine (proj1 (proj2 (proj2 (dispatch_error_codes no_decode ok_app sample_cfg None
                                   (mcp_request (Some "Bearer a.b.c.d.e")) (initial_state [])
                                   mcp_not_excluded))
                     "Bearer a.b.c.d.e" "Bearer" "a.b.c.d.e" eq_refl _ eq_refl eq_refl) eq_refl).
    discriminate.
  - eexists. split; [vm_compute; reflexivity |]. split; [vm_compute; reflexivity |].
    refine (proj1 (proj2 (proj2 (proj2 (dispatch_error_codes wide_iss_decode ok_app sample_cfg
                                          None (mcp_request (Some "Bearer h.p.s")) keyset_state
                                          mcp_not_excluded))
                            "Bearer h.p.s" "Bearer" "h.p.s" eq_refl _ eq_refl eq_refl)) _ _ _).
    + discriminate.
    + vm_compute. reflexivity.
    + vm_compute. reflexivity.
Defined.

(** C4 as stated fails: a malformed header ("Basic abc") gets
    error="invalid_token", not error="invalid_request". *)
Lemma dispatch_malformed_header_invalid_token :
  dispatch_401 "invalid_token"
    (dispatch no_decode ok_app sample_cfg None (mcp_request (Some "Basic abc"))
              (initial_state [])) /\
  ~ dispatch_401 "invalid_request"
    (dispatch no_decode ok_app sample_cfg None (mcp_request (Some "Basic abc"))
              (initial_state [])).
Proof.
  split.
  - unfold dispatch_401. simpl. apply (handle_value_error_ascii bad_header_msg). reflexivity.
  - unfold dispatch_401, unauthorized_with. vm_compute.
    intros [_ [h [Hh Hp]]]. injection Hh as <-. discriminate Hp.
Qed.

(** ** C10 *)

(** C10: exclusion is by prefix.  Whenever the path starts with an entry
    of the exclusion list (by default /healthz, /readyz, /.well-known/,
    /register), [dispatch] hands the request to the downstream handler
    without claims, whatever its Authorization header, and leaves the
    state (JWKS cache, fetch counter) untouched: no token is extracted or
    verified.  In particular every path that extends a default entry,
    such as /register-anything or /healthz/other, bypasses authentication. *)
Theorem dispatch_excluded_prefix_bypass jwt_decode call_next cfg excl req s :
  (forall e, In e (exclude_list excl) -> String.prefix e (req_path req) = true ->
     dispatch jwt_decode call_next cfg excl req s = (call_next None, s)) /\
  (forall e suffix auth, In e default_exclude_paths ->
     dispatch jwt_decode call_next cfg None (mkRequest (e +:+ suffix) auth) s
       = (call_next None, s)).
Proof.
  split.
  - intros e Hin Hp. apply dispatch_excluded. apply existsb_exists. eauto.
  - intros e suffix auth Hin. apply dispatch_excluded. apply existsb_exists.
    exists e. split; [exact Hin | apply prefix_append].
Qed.

Lemma dispatch_excluded_prefix_bypass_witness :
  dispatch no_decode ok_app sample_cfg None (mkRequest "/register-anything" None)
           (initial_state []) = (ok_app None, initial_state []) /\
  dispatch no_decode ok_app sample_cfg None (mkRequest "/healthz/other" (Some "junk"))
           (initial_state []) = (ok_app None, initial_state []).
Proof.
  split.
  - apply (proj2 (dispatch_excluded_prefix_bypass no_decode ok_app sample_cfg None
                    (mkRequest "" None) (initial_state [])) "/register" "-anything" None).
    simpl. tauto.
  - apply (proj1 (dispatch_excluded_prefix_bypass no_decode ok_app sample_cfg None
                    (mkRequest "/healthz/other" (Some "junk")) (initial_state []))
             "/healthz").
    + simpl. tauto.
    + reflexivity.
Defined.

(** ** C2 *)

(** A provider built as [OIDCAuthProvider()] with no scope in the config
    file and no OIDC_SCOPE: the [required_scope] parameter keeps its
    default. *)
Definition default_scope_cfg : config :=
  mkConfig "https://idp.example.com" "mcp-api" None
           (resolve_required_scope required_scope_param_default None None)
           3600 None None "/etc/mcp/secrets/dcr-captured-secrets.yaml".

(** authlib accepting the signature of an M2M token with scope "mcp:read". *)
Definition m2m_decode : string -> json -> res (list (string * json)) :=
  fun _ _ => Ok [("iss", JStr "https://idp.example.com/"); ("aud", JStr "mcp-api");
                 ("sub", JStr "client@clients"); ("scope", JStr "mcp:read")].

Definition sample_jwks : json := JObj [("keys", JArr [JObj [("kid", JStr "k1")]])].

(** C2 (code_bug): with no scope configured anywhere, the parameter
    default "openid" is the required scope, and a valid M2M token whose
    scope is "mcp:read" is rejected. *)
Theorem m2m_token_rejected_by_default_scope :
  required_scope default_scope_cfg = Some "openid" /\
  fst (verify_token m2m_decode default_scope_cfg "hdr.payload.sig"
                    (initial_state [Some sample_jwks]))
    = Raise (ValueError
               "Required scope 'openid' not found in token. Token has: ['mcp:read']").
Proof. split; vm_compute; reflexivity. Qed.

(** ** C7 *)

Definition secrets_file_path : string := "/etc/mcp/secrets/client-secrets.yaml".

(** C7 (code_bug): a secret listed both under [client_secrets] in the
    config file and in the file named by [client_secrets_file] appears
    twice in the in-memory list after construction. *)
Theorem init_client_secrets_duplicate :
  init_client_secrets None (Some (CSList [JStr "s3cr3t"])) (Some secrets_file_path) JNull
    "/etc/mcp/secrets/dcr-captured-secrets.yaml"
    (<[secrets_file_path := YList [JStr "s3cr3t"]]> ∅)
  = [JStr "s3cr3t"; JStr "s3cr3t"].
Proof. vm_compute. reflexivity. Qed.

(** ** Dictionary lemmas *)

Lemma dget_dset_same k v kv : dget k (dset k v kv) = Some v.
Proof.
  induction kv as [| [k' w] kv IH]; simpl.
  - rewrite String.eqb_refl. reflexivity.
  - destruct (String.eqb_spec k k') as [-> | Hne]; simpl.
    + rewrite String.eqb_refl. reflexivity.
    + apply String.eqb_neq in Hne. rewrite Hne. exact IH.
Qed.

Lemma dget_dset_other k k' v kv : k <> k' -> dget k (dset k' v kv) = dget k kv.
Proof.
  intros Hne. induction kv as [| [k0 w] kv IH]; simpl.
  - apply String.eqb_neq in Hne. rewrite Hne. reflexivity.
  - destruct (String.eqb_spec k' k0) as [-> | Hne0]; simpl.
    + apply String.eqb_neq in Hne. rewrite Hne. reflexivity.
    + rewrite IH. reflexivity.
Qed.



Lemma lookup_delete_hop (h : gmap string string) k :
  In k hop_by_hop -> foldr delete h hop_by_hop !! k = None.
Proof.
  intros Hin. unfold hop_by_hop in *. simpl.
  repeat (destruct Hin as [<- | Hin];
          [repeat (rewrite lookup_delete_eq || rewrite lookup_delete_ne by discriminate);
           reflexivity |]).
  destruct Hin.
Qed.

(** What [register_client] forwards: a JSON object with the three
    public-client fields forced and every other field kept; an
    undecodable-as-JSON but valid-text body unchanged; never a hop-by-hop
    header. *)
Lemma prepare_forward_spec decodes_other json_parse json_dumps body raw_headers :
  (forall kv, json_loads decodes_other json_parse body = Loaded (JObj kv) ->
     exists h,
       prepare_forward decodes_other json_parse json_dumps body raw_headers
         = Ok (json_dumps (JObj (force_public_client kv)), h) /\
       (forall k, In k hop_by_hop -> h !! k = None)) /\
  (json_loads decodes_other json_parse body = JSONDecodeError ->
     exists h,
       prepare_forward decodes_other json_parse json_dumps body raw_headers = Ok (body, h) /\
       (forall k, In k hop_by_hop -> h !! k = None)) /\
  (forall kv,
     dget "token_endpoint_auth_method" (force_public_client kv) = Some (JStr "none") /\
     dget "application_type" (force_public_client kv) = Some (JStr "native") /\
     dget "app_type" (force_public_client kv) = Some (JStr "spa") /\
     (forall k, k <> "token_endpoint_auth_method" -> k <> "application_type" ->
        k <> "app_type" -> dget k (force_public_client kv) = dget k kv)).
Proof.
  split; [| split].
  - intros kv Hl. unfold prepare_forward. rewrite Hl. simpl.
    eexists. split; [reflexivity |]. apply lookup_delete_hop.
  - intros Hl. unfold prepare_forward. rewrite Hl. simpl.
    eexists. split; [reflexivity |]. apply lookup_delete_hop.
  - intros kv. unfold force_public_client. repeat split.
    + rewrite !dget_dset_other by discriminate. apply dget_dset_same.
    + rewrite dget_dset_other by discriminate. apply dget_dset_same.
    + apply dget_dset_same.
    + intros k H1 H2 H3. rewrite !dget_dset_other by assumption. reflexivity.
Qed.

(** ** C5 *)

(** C5 (code_bug): a registration body that is not valid UTF-8 (the
    single byte 0xFF) does not parse as JSON, yet it is not forwarded:
    [json.loads] raises [UnicodeDecodeError], which the
    [except json.JSONDecodeError] clause does not catch, and the proxy
    answers 500 without contacting the upstream endpoint. *)
Theorem register_non_utf8_body_not_forwarded
    decodes_other json_parse json_dumps upstream_post update_client_type cfg raw_headers s :
  json_loads decodes_other json_parse [Byte.xff] = UnicodeDecodeError /\
  register_client decodes_other json_parse json_dumps upstream_post update_client_type
                  cfg [Byte.xff] raw_headers s
    = (Ok (server_error (ValueError "'utf-8' codec can't decode")), s).
Proof. split; reflexivity. Qed.

(** ** C8 *)

Definition registration_failed (reply : upstream_reply) : response :=
  Response (up_status reply)
    (JObj [("error", JStr "registration_failed"); ("error_description", JStr (up_text reply))])
    [].

(** C8 (as amended): when the upstream status is neither 200 nor 201 the
    proxy answers with that status and the body
    {"error": "registration_failed", "error_description": <upstream text>};
    when preparing or forwarding the request raises, it answers 500 with
    {"error": "server_error", "error_description": str(e)}.  The state is
    unchanged in both cases. *)
Theorem register_error_responses
    decodes_other json_parse json_dumps upstream_post update_client_type cfg body raw_headers s :
  (forall modified_body headers reply,
     prepare_forward decodes_other json_parse json_dumps body raw_headers
       = Ok (modified_body, headers) ->
     upstream_post modified_body headers = Ok reply ->
     up_status reply <> 200 -> up_status reply <> 201 ->
     register_client decodes_other json_parse json_dumps upstream_post update_client_type
                     cfg body raw_headers s = (Ok (registration_failed reply), s)) /\
  (forall e,
     prepare_forward decodes_other json_parse json_dumps body raw_headers = Raise e ->
     register_client decodes_other json_parse json_dumps upstream_post update_client_type
                     cfg body raw_headers s = (Ok (server_error e), s)) /\
  (forall modified_body headers e,
     prepare_forward decodes_other json_parse json_dumps body raw_headers
       = Ok (modified_body, headers) ->
     upstream_post modified_body headers = Raise e ->
     register_client decodes_other json_parse json_dumps upstream_post update_client_type
                     cfg body raw_headers s = (Ok (server_error e), s)).
Proof.
  unfold register_client. split; [| split].
  - intros mb h reply Hp Hpost H200 H201. rewrite Hp, Hpost.
    apply Z.eqb_neq in H200, H201. rewrite H200, H201. reflexivity.
  - intros e Hp. rewrite Hp. reflexivity.
  - intros mb h e Hp Hpost. rewrite Hp, Hpost. reflexivity.
Qed.

(** A fixed upstream world for the concrete runs below. *)
Definition any_text : encoding -> list byte -> bool := fun _ _ => true.
Definition parse_redirect_request : encoding -> list byte -> option json :=
  fun _ _ => Some (JObj [("redirect_uris", JArr [JStr "https://x"])]).
Definition dumps_stub : json -> list byte := fun _ => [Byte.x7b; Byte.x7d].
Definition no_update : json -> bool := fun _ => false.
Definition redirect_body : list byte := [Byte.x7b; Byte.x7d].

Definition upstream_error_doc : json := JObj [("error", JStr "invalid_redirect_uri")].
Definition upstream_rejects : list byte -> gmap string string -> res upstream_reply :=
  fun _ _ => Ok (mkReply 400 (Some upstream_error_doc)
                   ("{" +:+ dq +:+ "error" +:+ dq +:+ ":" +:+ dq +:+
                    "invalid_redirect_uri" +:+ dq +:+ "}") []).

Lemma register_error_responses_witness :
  register_client any_text parse_redirect_request dumps_stub upstream_rejects no_update
                  sample_cfg redirect_body [] (initial_state [])
  = (Ok (registration_failed
           (mkReply 400 (Some upstream_error_doc)
              ("{" +:+ dq +:+ "error" +:+ dq +:+ ":" +:+ dq +:+
               "invalid_redirect_uri" +:+ dq +:+ "}") [])), initial_state []).
Proof.
  refine (proj1 (register_error_responses any_text parse_redirect_request dumps_stub
                   upstream_rejects no_update sample_cfg redirect_body [] (initial_state []))
            _ _ _ eq_refl eq_refl _ _); discriminate.
Defined.

(** C8 as stated fails: the upstream's JSON error document is not passed
    through; the proxy's body is its own registration_failed object. *)
Lemma register_error_body_not_verbatim :
  exists r,
    fst (register_client any_text parse_redirect_request dumps_stub upstream_rejects no_update
                         sample_cfg redirect_body [] (initial_state [])) = Ok r /\
    status r = 400 /\ content r <> upstream_error_doc.
Proof.
  eexists. split; [reflexivity |]. split; [reflexivity |].
  simpl. discriminate.
Qed.

(** ** C6 *)

Lemma py_in_snoc x l : py_in (JStr x) (l ++ [JStr x]) = true.
Proof.
  unfold py_in. rewrite existsb_app. apply orb_true_intro. right.
  simpl. rewrite String.eqb_refl. reflexivity.
Qed.



Lemma write_secrets_secrets path l s :
  client_secrets (write_secrets path l s) = client_secrets s.
Proof. unfold write_secrets. destruct (existsb _ _); reflexivity. Qed.

Lemma persist_secrets cfg v s :
  client_secrets (persist_dcr_secret cfg v s) = client_secrets s.
Proof.
  unfold persist_dcr_secret.
  destruct (files s !! dcr_secrets_path cfg) as [[l | | | | |] |];
    try destruct (py_in v l); first [reflexivity | apply write_secrets_secrets].
Qed.




Lemma capture_secret_memory cfg x s :
  py_in (JStr x) (client_secrets (capture_secret cfg (JStr x) s)) = true.
Proof.
  unfold capture_secret. rewrite persist_secrets.
  destruct (py_in (JStr x) (client_secrets s)) eqn:E.
  - exact E.
  - apply py_in_snoc.
Qed.







(** ** C9 *)

(** A string secret without lone surrogates: [secret.encode('utf-8')]
    succeeds. *)
Definition is_utf8_str (v : json) : bool :=
  match v with
  | JStr s => match utf8_encode_error s with None => true | Some _ => false end
  | _ => false
  end.

Lemma try_keys_app deserialize_compact loads_text token k1 k2 :
  try_keys deserialize_compact loads_text token (k1 ++ k2)
  = match try_keys deserialize_compact loads_text token k1 with
    | Some c => Some c
    | None => try_keys deserialize_compact loads_text token k2
    end.
Proof.
  induction k1 as [| [m k] k1 IH]; simpl; [reflexivity |].
  destruct (try_key deserialize_compact loads_text token k); [reflexivity | exact IH].
Qed.

(** The decryptor over a store of string secrets without lone
    surrogates is one search, in order, over the concatenation of every secret's candidate keys. *)
Lemma decrypt_jwe_token_flat urlsafe_b64decode sha256 deserialize_compact loads_text token secrets :
  forallb is_utf8_str secrets = true ->
  decrypt_jwe_token urlsafe_b64decode sha256 deserialize_compact loads_text token secrets
  = match try_keys deserialize_compact loads_text token
            (flat_map (fun v => match v with
                                | JStr sec => prepare_jwe_key urlsafe_b64decode sha256 sec
                                | _ => []
                                end) secrets) with
    | Some c => Ok c
    | None => Raise (JoseError jwe_exhausted_msg "")
    end.
Proof.
  induction secrets as [| v secrets IH]; simpl; [reflexivity |].
  intros H. apply andb_prop in H as [Hv Hs].
  destruct v as [| | | s | |]; try discriminate.
  unfold is_utf8_str in Hv. destruct (utf8_encode_error s); [discriminate |].
  rewrite try_keys_app, (IH Hs).
  destruct (try_keys deserialize_compact loads_text token
              (prepare_jwe_key urlsafe_b64decode sha256 s)); reflexivity.
Qed.

(** The five derivations, in source order, for a secret whose base64url
    decoding is 32 bytes and whose UTF-8 encoding is longer than 32. *)
Lemma prepare_jwe_key_order urlsafe_b64decode sha256 secret decoded :
  is_ascii (let padding := (4 - Nat.modulo (py_len secret) 4)%nat in
            if Nat.eqb padding 4 then secret
            else secret +:+ string_of_list_ascii (repeat "="%char padding)) = true ->
  urlsafe_b64decode (utf8_encode (let padding := (4 - Nat.modulo (py_len secret) 4)%nat in
            if Nat.eqb padding 4 then secret
            else secret +:+ string_of_list_ascii (repeat "="%char padding))) = Some decoded ->
  length decoded = 32%nat ->
  (32 < length (utf8_encode secret))%nat ->
  map fst (prepare_jwe_key urlsafe_b64decode sha256 secret)
  = ["base64url-decoded"; "sha256-hash"; "utf8-truncated"; "raw"].
Proof.
  intros Ha Hd Hl Hlen. unfold prepare_jwe_key, b64_candidate. cbv zeta in *.
  rewrite Ha, Hd, Hl.
  rewrite (proj2 (Nat.eqb_neq (length (utf8_encode secret)) 32)) by lia.
  rewrite (proj2 (Nat.leb_le 32 (length (utf8_encode secret)))) by lia.
  reflexivity.
Qed.

Definition no_b64 : list byte -> option (list byte) := fun _ => None.
Definition sha_stub : list byte -> list byte := fun _ => repeat Byte.x01 32.
Definition is_sha_key (key : list byte) : bool :=
  Nat.eqb (length key) 32 && forallb (Byte.eqb Byte.x01) key.
(** A signed JWT, the content the source's comment expects inside an
    encrypted ID token. *)
Definition nested_jwt : string := "eyJhbGciOiJSUzI1NiJ9.eyJzdWIiOiJ1In0.c2ln".
Definition jwe_stub : string -> list byte -> res (list byte) :=
  fun _ key => if is_sha_key key then Ok (utf8_encode nested_jwt)
               else Raise (JoseError "decryption failed" "").
(** [json.loads]: a JWT string is not a JSON document. *)
Definition loads_stub : list byte -> option json :=
  fun p => match p with
           | b :: _ => if Byte.eqb b Byte.x7b then Some (JObj []) else None
           | [] => None
           end.
Definition jwe_token : string := "eyJhbGciOiJkaXIifQ..iv.ct.tag".

(** C9: the first successful decryption does not end the search when its
    payload is not a JSON document: the sha256-hash key decrypts the
    token to a signed JWT, [json.loads] of it raises inside the [try],
    the remaining keys are tried and fail, and the aggregated error is
    raised. *)
Theorem decrypt_jwe_nested_jwt_rejected :
  jwe_stub jwe_token (sha_stub (utf8_encode "s3cr3t")) = Ok (utf8_encode nested_jwt) /\
  map fst (prepare_jwe_key no_b64 sha_stub "s3cr3t") = ["sha256-hash"; "raw"] /\
  decrypt_jwe_token no_b64 sha_stub jwe_stub loads_stub jwe_token [JStr "s3cr3t"]
  = Raise (JoseError jwe_exhausted_msg "").
Proof. vm_compute. repeat split. Qed.

(* ------------------------------------------------------------------ *)
(** * Further properties of the module *)

(** ** String lemmas *)

Lemma py_rstrip_slash (i : string) : py_rstrip "/" (i +:+ "/") = py_rstrip "/" i.
Proof.
  unfold py_rstrip. rewrite list_ascii_of_string_app. simpl.
  rewrite rev_app_distr. simpl. reflexivity.
Qed.

(** Words of [s.split()]: text without whitespace, and text made of
    whitespace only. *)
Definition no_space (w : string) : bool :=
  forallb (fun ch => full_char ch && negb (py_isspace ch)) (py_chars w).
Definition all_space (w : string) : bool := forallb py_isspace (py_chars w).

(** Lowercase ASCII letters only. *)
Definition lower_letters (t : string) : bool :=
  forallb (fun c => (97 <=? nat_of_ascii c) && (nat_of_ascii c <=? 122))%nat
    (list_ascii_of_string t).

Lemma all_space_complete w : all_space w = true -> complete_text w = true.
Proof.
  unfold all_space, complete_text. intros H. apply forallb_forall. intros ch Hin.
  eapply forallb_forall in H; [| exact Hin]. unfold py_isspace in H.
  apply andb_prop in H as [H _]. exact H.
Qed.

Lemma no_space_complete w : no_space w = true -> complete_text w = true.
Proof.
  unfold no_space, complete_text. intros H. apply forallb_forall. intros ch Hin.
  eapply forallb_forall in H; [| exact Hin]. apply andb_prop in H as [H _]. exact H.
Qed.

Lemma py_chars_nil s : py_chars s = [] -> s = "".
Proof. intros H. rewrite <- (str_concat_py_chars s), H. reflexivity. Qed.

Lemma split_words_word cur cs rest :
  forallb (fun ch => full_char ch && negb (py_isspace ch)) cs = true ->
  split_words cur (cs ++ rest) = split_words (cur +:+ str_concat cs) rest.
Proof.
  revert cur. induction cs as [| ch cs IH]; intros cur H.
  - rewrite app_nil_l. change (str_concat []) with "". rewrite str_app_nil_r. reflexivity.
  - cbn [forallb] in H. apply andb_prop in H as [Hc H].
    apply andb_prop in Hc as [_ Hc]. apply negb_true_iff in Hc.
    rewrite <- app_comm_cons. cbn [split_words]. rewrite Hc, IH by exact H.
    change (str_concat (ch :: cs)) with (ch +:+ str_concat cs).
    rewrite str_app_assoc. reflexivity.
Qed.

Lemma split_words_spaces_empty cs rest :
  forallb py_isspace cs = true -> split_words "" (cs ++ rest) = split_words "" rest.
Proof.
  induction cs as [| ch cs IH]; intros H; [reflexivity |].
  cbn [forallb] in H. apply andb_prop in H as [Hc H].
  rewrite <- app_comm_cons. cbn [split_words]. rewrite Hc. apply IH, H.
Qed.

Lemma split_words_spaces cur cs rest :
  forallb py_isspace cs = true -> cs <> [] ->
  split_words cur (cs ++ rest)
  = (if String.eqb cur "" then [] else [cur]) ++ split_words "" rest.
Proof.
  destruct cs as [| ch cs]; intros H Hne; [congruence |].
  cbn [forallb] in H. apply andb_prop in H as [Hc H].
  rewrite <- app_comm_cons. cbn [split_words]. rewrite Hc, split_words_spaces_empty by exact H.
  reflexivity.
Qed.

Lemma split_words_end cur cs :
  forallb py_isspace cs = true -> cur <> "" -> split_words cur cs = [cur].
Proof.
  intros H Hcur. apply String.eqb_neq in Hcur. destruct cs as [| ch cs].
  - cbn [split_words]. rewrite Hcur. reflexivity.
  - rewrite <- (app_nil_r (ch :: cs)), split_words_spaces by (exact H || discriminate).
    rewrite Hcur. reflexivity.
Qed.

(** [s.split()] of a header made of two words and surrounding blanks. *)
Lemma py_split_ws_two ws1 w1 ws2 w2 ws3 :
  all_space ws1 = true -> no_space w1 = true -> all_space ws2 = true ->
  no_space w2 = true -> all_space ws3 = true ->
  w1 <> "" -> w2 <> "" -> ws2 <> "" ->
  py_split_ws (ws1 +:+ w1 +:+ ws2 +:+ w2 +:+ ws3) = [w1; w2].
Proof.
  intros H1 H2 H3 H4 H5 Hw1 Hw2 Hs2. unfold py_split_ws.
  rewrite !py_chars_app
    by first [apply all_space_complete; assumption | apply no_space_complete; assumption].
  rewrite split_words_spaces_empty by exact H1.
  rewrite split_words_word by exact H2. rewrite str_app_nil_l, str_concat_py_chars.
  rewrite split_words_spaces by (exact H3 || (intros E; apply Hs2, py_chars_nil, E)).
  apply String.eqb_neq in Hw1. rewrite Hw1. cbn [app]. f_equal.
  rewrite split_words_word by exact H4. rewrite str_app_nil_l, str_concat_py_chars.
  apply split_words_end; [exact H5 | exact Hw2].
Qed.

Lemma py_isspace_cp_mid n : 33 <= n <= 132 -> py_isspace_cp n = false.
Proof.
  intros Hn. unfold py_isspace_cp.
  rewrite (proj2 (Z.leb_gt n 13)), (proj2 (Z.leb_gt n 32)) by lia.
  rewrite (proj2 (Z.leb_gt 8192 n)) by lia.
  rewrite (proj2 (Z.eqb_neq n 133)), (proj2 (Z.eqb_neq n 160)), (proj2 (Z.eqb_neq n 5760)),
    (proj2 (Z.eqb_neq n 8232)), (proj2 (Z.eqb_neq n 8233)), (proj2 (Z.eqb_neq n 8239)),
    (proj2 (Z.eqb_neq n 8287)), (proj2 (Z.eqb_neq n 12288)) by lia.
  rewrite !andb_false_r. reflexivity.
Qed.

Lemma chr_not_empty n : exists c r, chr n = String c r.
Proof. unfold chr. repeat destruct (_ <? _); eauto. Qed.

(** A character whose lowercase form starts with a lowercase ASCII
    letter is one whole character and not whitespace. *)
Lemma lower_char_letter ch c r :
  (exists c0 r0, ch = String c0 r0 /\ (full_char ch = true \/ r0 = "")) ->
  lower_char ch = String c r ->
  ((97 <=? nat_of_ascii c) && (nat_of_ascii c <=? 122))%nat = true ->
  full_char ch && negb (py_isspace ch) = true.
Proof.
  intros (c0 & r0 & Hch & Hf) Hl Hc.
  apply andb_prop in Hc as [Hc1 Hc2]. apply Nat.leb_le in Hc1, Hc2.
  unfold lower_char in Hl. set (n := code_point ch) in Hl.
  destruct (full_char ch && _) eqn:E.
  - apply andb_prop in E as [Hfc E]. unfold py_isspace. rewrite Hfc. cbn [andb negb].
    apply orb_prop in E as [E | E].
    + apply andb_prop in E as [E1 E2]. apply Z.leb_le in E1, E2.
      rewrite py_isspace_cp_mid by (fold n; lia). reflexivity.
    + exfalso. apply andb_prop in E as [E _]. apply andb_prop in E as [E1 E2].
      apply Z.leb_le in E1, E2.
      unfold chr in Hl.
      rewrite (proj2 (Z.ltb_ge (n + 32) 128)), (proj2 (Z.ltb_lt (n + 32) 2048)) in Hl by lia.
      assert (Hd : (n + 32) / 64 = 3).
      { symmetry. apply Z.div_unique with (r := n + 32 - 192); lia. }
      rewrite Hd in Hl. injection Hl as Hl _. subst c. vm_compute in Hc2. lia.
  - subst ch. injection Hl as <- <-.
    assert (Hlead : lead_len c0 = 1%nat).
    { unfold lead_len. rewrite (proj2 (Nat.ltb_lt (nat_of_ascii c0) 192)) by lia. reflexivity. }
    assert (Hr : r0 = "").
    { destruct Hf as [Hf | Hf]; [| exact Hf].
      unfold full_char in Hf. rewrite Hlead in Hf. apply Nat.eqb_eq in Hf.
      destruct r0; [reflexivity | cbn in Hf; lia]. }
    subst r0. unfold py_isspace, full_char. cbn [String.length]. rewrite Hlead.
    cbn [Nat.eqb andb negb code_point].
    rewrite py_isspace_cp_mid by (unfold byte_val; lia). reflexivity.
Qed.

Lemma lower_char_not_empty ch c0 r0 : ch = String c0 r0 -> exists c r, lower_char ch = String c r.
Proof.
  intros Hch. unfold lower_char. destruct (full_char ch && _).
  - apply chr_not_empty.
  - subst ch. eauto.
Qed.

Lemma concat_lower_letters cs t :
  (forall ch, In ch cs -> exists c0 r0, ch = String c0 r0 /\ (full_char ch = true \/ r0 = "")) ->
  str_concat (map lower_char cs) = t -> lower_letters t = true ->
  forallb (fun ch => full_char ch && negb (py_isspace ch)) cs = true.
Proof.
  revert t. induction cs as [| ch cs IH]; intros t Hp Ht Hl; [reflexivity |].
  pose proof (Hp ch (or_introl eq_refl)) as Hpc.
  destruct Hpc as (c0 & r0 & Hch & Hf).
  destruct (lower_char_not_empty ch c0 r0 Hch) as (c & r & Hlc).
  change (str_concat (map lower_char (ch :: cs)))
    with (lower_char ch +:+ str_concat (map lower_char cs)) in Ht.
  rewrite Hlc, str_app_cons in Ht. subst t.
  unfold lower_letters in Hl. cbn [list_ascii_of_string forallb] in Hl.
  apply andb_prop in Hl as [Hc Hl].
  rewrite list_ascii_of_string_app, forallb_app in Hl. apply andb_prop in Hl as [_ Hl].
  cbn [forallb].
  rewrite (lower_char_letter ch c r (ex_intro _ c0 (ex_intro _ r0 (conj Hch Hf))) Hlc Hc).
  cbn [andb]. apply (IH (str_concat (map lower_char cs))).
  - intros ch' Hin. apply Hp. right. exact Hin.
  - reflexivity.
  - exact Hl.
Qed.

Lemma no_space_of_lower s : lower_letters (py_lower s) = true -> no_space s = true.
Proof.
  intros H. apply (concat_lower_letters (py_chars s) (py_lower s)).
  - intros ch Hin. exact (py_chars_piece s ch Hin).
  - reflexivity.
  - exact H.
Qed.

(** [authenticate_request] accepts the scheme word in any letter case and
    blanks around and between the two words: such a header hands exactly
    its second word to [verify_token]. *)
Theorem authenticate_request_bearer jwt_decode cfg ws1 scheme ws2 token ws3 s :
  py_lower scheme = "bearer" ->
  all_space ws1 = true -> all_space ws2 = true -> ws2 <> "" -> all_space ws3 = true ->
  no_space token = true -> token <> "" ->
  authenticate_request jwt_decode cfg (Some (ws1 +:+ scheme +:+ ws2 +:+ token +:+ ws3)) s
  = verify_token jwt_decode cfg token s.
Proof.
  intros Hl H1 H2 H2' H3 Ht Ht'.
  assert (Hs : no_space scheme = true) by (apply no_space_of_lower; rewrite Hl; reflexivity).
  assert (Hs' : scheme <> "") by (intros ->; discriminate Hl).
  unfold authenticate_request.
  assert (Hne : String.eqb (ws1 +:+ scheme +:+ ws2 +:+ token +:+ ws3) "" = false).
  { apply String.eqb_neq. apply str_app_not_empty. destruct scheme; [congruence |].
    rewrite str_app_cons. discriminate. }
  rewrite Hne, py_split_ws_two by assumption. rewrite Hl. reflexivity.
Qed.

Lemma authenticate_request_bearer_witness :
  authenticate_request no_decode sample_cfg (Some (" " +:+ "BeArEr" +:+ "   " +:+ "h.p.s" +:+ " "))
    (initial_state [])
  = verify_token no_decode sample_cfg "h.p.s" (initial_state []).
Proof.
  apply authenticate_request_bearer;
    first [reflexivity | discriminate].
Defined.

(** ** Claim checks of verify_token *)

Lemma py_rstrip_empty : py_rstrip "/" "" = "".
Proof. reflexivity. Qed.

(** The issuer check accepts a token exactly when its [iss] (the empty
    string when absent), with trailing slashes removed, is the backend
    issuer or the non-empty public URL, both with trailing slashes
    removed. *)
Theorem check_issuer_accepts cfg claims iss :
  default (JStr "") (dget "iss" claims) = JStr iss ->
  check_issuer cfg claims = Ok tt <->
  (py_rstrip "/" iss = py_rstrip "/" (issuer cfg) \/
   exists pu, public_url cfg = Some pu /\ py_rstrip "/" pu <> "" /\
              py_rstrip "/" iss = py_rstrip "/" pu).
Proof.
  intros Hi. unfold check_issuer. rewrite Hi.
  set (t := py_rstrip "/" iss). set (b := py_rstrip "/" (issuer cfg)).
  set (extra := match public_url cfg with
                | Some pu =>
                    if negb (String.eqb pu "") && negb (String.eqb (py_rstrip "/" pu) "")
                       && negb (String.eqb (py_rstrip "/" pu) b)
                    then [py_rstrip "/" pu] else []
                | None => []
                end).
  assert (Hex : existsb (String.eqb t) ([b] ++ extra) = true <->
                t = b \/ exists pu, public_url cfg = Some pu /\ py_rstrip "/" pu <> "" /\
                                    t = py_rstrip "/" pu).
  { simpl. rewrite orb_true_iff, String.eqb_eq. unfold extra.
    destruct (public_url cfg) as [pu |] eqn:Epu.
    - destruct (String.eqb_spec pu "") as [-> | Hpu]; simpl.
      + split; [intros [H | H]; [tauto | discriminate] |].
        intros [H | (pu' & E & Hne & _)]; [tauto |].
        injection E as <-. contradiction.
      + destruct (String.eqb_spec (py_rstrip "/" pu) "") as [Hr | Hr]; simpl.
        * split; [intros [H | H]; [tauto | discriminate] |].
          intros [H | (pu' & E & Hne & _)]; [tauto |].
          injection E as <-. contradiction.
        * destruct (String.eqb_spec (py_rstrip "/" pu) b) as [Hb | Hb]; simpl.
          -- split; [intros [H | H]; [tauto | discriminate] |].
             intros [H | (pu' & E & Hne & Ht)]; [tauto |].
             injection E as <-. left. congruence.
          -- rewrite orb_false_r, String.eqb_eq. split.
             ++ intros [H | H]; [tauto | right; eauto].
             ++ intros [H | (pu' & E & Hne & Ht)]; [tauto |].
                injection E as <-. tauto.
    - simpl. split; [intros [H | H]; [tauto | discriminate] |].
      intros [H | (pu' & E & _)]; [tauto | discriminate]. }
  destruct (existsb (String.eqb t) ([b] ++ extra)) eqn:E.
  - split; [intros _; apply Hex; reflexivity | reflexivity].
  - split; [discriminate |]. intros H. apply Hex in H. congruence.
Qed.

Lemma check_issuer_accepts_witness :
  check_issuer sample_cfg [("iss", JStr "https://idp.example.com///")] = Ok tt.
Proof.
  apply (proj2 (check_issuer_accepts sample_cfg [("iss", JStr "https://idp.example.com///")]
                  "https://idp.example.com///" eq_refl)).
  left. reflexivity.
Defined.

Lemma py_in_jstr a l : py_in (JStr a) l = true <-> In (JStr a) l.
Proof.
  unfold py_in. rewrite existsb_exists. split.
  - intros (x & Hx & He). destruct x; try discriminate.
    simpl in He. apply String.eqb_eq in He. subst. exact Hx.
  - intros H. exists (JStr a). split; [exact H | apply String.eqb_refl].
Qed.

(** The audience check is exact: a list-valued [aud] must contain the
    configured audience, any other [aud] must be that string; a missing
    [aud] is rejected. *)
Theorem check_audience_accepts cfg claims :
  check_audience cfg claims = Ok tt <->
  match default JNull (dget "aud" claims) with
  | JArr l => In (JStr (audience cfg)) l
  | aud => aud = JStr (audience cfg)
  end.
Proof.
  unfold check_audience.
  destruct (default JNull (dget "aud" claims)) as [| b | z | a | l | kv];
    try (split; [discriminate | intros H; discriminate H]).
  - simpl. destruct (String.eqb_spec a (audience cfg)) as [-> | Hne].
    + split; reflexivity.
    + split; [discriminate | intros H; injection H; contradiction].
  - destruct (py_in (JStr (audience cfg)) l) eqn:E.
    + split; [intros _; apply py_in_jstr, E | reflexivity].
    + split; [discriminate | intros H; apply py_in_jstr in H; congruence].
Qed.

Lemma py_in_map_jstr r l : py_in (JStr r) (map JStr l) = true <-> In r l.
Proof.
  rewrite py_in_jstr, in_map_iff. split.
  - intros (x & E & Hx). injection E as ->. exact Hx.
  - intros H. exists r. split; [reflexivity | exact H].
Qed.

(** The scope check: with a non-empty required scope and a string-valued
    [scope] claim (the empty string when absent), a token passes exactly
    when the required scope is one of the whitespace-separated words;
    with no required scope (unset or empty) every token passes. *)
Theorem check_scope_accepts cfg claims :
  (forall r sc, required_scope cfg = Some r -> r <> "" ->
     default (JStr "") (dget "scope" claims) = JStr sc ->
     (check_scope cfg claims = Ok tt <-> In r (py_split_ws sc))) /\
  (opt_truthy (required_scope cfg) = false -> check_scope cfg claims = Ok tt).
Proof.
  unfold check_scope. split.
  - intros r sc Hr Hne Hsc. rewrite Hr. apply String.eqb_neq in Hne. rewrite Hne, Hsc.
    simpl. destruct (py_in (JStr r) (map JStr (py_split_ws sc))) eqn:E.
    + split; [intros _; apply py_in_map_jstr, E | reflexivity].
    + split; [discriminate | intros H; apply py_in_map_jstr in H; congruence].
  - destruct (required_scope cfg) as [r |]; [| reflexivity].
    simpl. intros H. apply negb_false_iff in H. rewrite H. reflexivity.
Qed.

Definition scoped_cfg : config :=
  mkConfig "https://idp.example.com" "mcp-api" None (Some "mcp:read") 3600 None None
           "/etc/mcp/secrets/dcr-captured-secrets.yaml".

Lemma check_scope_accepts_witness :
  check_scope scoped_cfg [("scope", JStr "openid  mcp:read")] = Ok tt /\
  check_scope sample_cfg [] = Ok tt.
Proof.
  split.
  - apply (proj1 (check_scope_accepts scoped_cfg [("scope", JStr "openid  mcp:read")])
             "mcp:read" "openid  mcp:read" eq_refl); [discriminate | reflexivity |].
    vm_compute. right. left. reflexivity.
  - apply (proj2 (check_scope_accepts sample_cfg [])). reflexivity.
Defined.

(** ** When the middleware lets an exception escape *)

Lemma handle_auth_error_raises e e' :
  handle_auth_error e = Raise e' ->
  (exists msg, e' = ValueError msg) /\
  (complete_text (exn_str e) = false \/
   (latin1_text (exn_str e) = false /\ forall c m, e <> OtherError c m)).
Proof.
  intros H. split.
  - unfold handle_auth_error in H. destruct e; cbv zeta in H;
      match type of H with
      | json_response ?a ?b ?c = _ =>
          destruct (json_response_cases a b c) as [E | [m0 E]]; rewrite E in H;
            [discriminate | injection H as <-; eauto]
      end.
  - destruct (complete_text (exn_str e)) eqn:Hc; [right | left; reflexivity].
    pose proof (handle_auth_error_answer e Hc) as A. rewrite H in A.
    unfold auth_error_answer in A. destruct e as [m | er d | c m]; [| | discriminate A];
      cbv zeta in A; destruct (latin1_text _) eqn:L;
      solve [ simpl in A; contradiction | split; [reflexivity | discriminate] ].
Qed.

(** On a path that is not excluded, [dispatch] raises only when the
    response for an exception of [authenticate_request] or of the
    downstream application cannot be built: the escaping exception is a
    [ValueError] (the [UnicodeEncodeError] [JSONResponse] raises), and
    the exception it was answering is a [ValueError] or a [JoseError]
    whose message holds a character above U+00FF, or is not well-formed
    text. *)
Theorem dispatch_escapes jwt_decode call_next cfg excl req s e :
  (forall x, In x (exclude_list excl) -> String.prefix x (req_path req) = false) ->
  fst (dispatch jwt_decode call_next cfg excl req s) = Raise e ->
  exists e0,
    (fst (authenticate_request jwt_decode cfg (req_authorization req) s) = Raise e0 \/
     exists claims,
       fst (authenticate_request jwt_decode cfg (req_authorization req) s) = Ok claims /\
       call_next (Some claims) = Raise e0) /\
    handle_auth_error e0 = Raise e /\
    (exists msg, e = ValueError msg) /\
    (complete_text (exn_str e0) = false \/
     (latin1_text (exn_str e0) = false /\ forall c m, e0 <> OtherError c m)).
Proof.
  intros Hx H. rewrite dispatch_not_excluded in H by exact Hx.
  destruct (authenticate_request jwt_decode cfg (req_authorization req) s)
    as [[claims | e0] s'] eqn:E.
  - destruct (call_next (Some claims)) as [r | e0] eqn:Ec; cbn [fst] in H; [discriminate |].
    exists e0. split; [right; exists claims; split; [reflexivity | exact Ec] |].
    split; [exact H |]. apply handle_auth_error_raises. exact H.
  - cbn [fst] in H. exists e0. split; [left; reflexivity |].
    split; [exact H |]. apply handle_auth_error_raises. exact H.
Qed.

Lemma dispatch_escapes_witness :
  exists e,
    fst (dispatch wide_iss_decode ok_app sample_cfg None
                  (mcp_request (Some "Bearer h.p.s")) keyset_state) = Raise e /\
    exists e0, handle_auth_error e0 = Raise e /\ (exists msg, e = ValueError msg) /\
               (complete_text (exn_str e0) = false \/ latin1_text (exn_str e0) = false).
Proof.
  eexists. split; [vm_compute; reflexivity |].
  destruct (dispatch_escapes wide_iss_decode ok_app sample_cfg None
              (mcp_request (Some "Bearer h.p.s")) keyset_state _ mcp_not_excluded
              ltac:(vm_compute; reflexivity)) as (e0 & _ & H1 & H2 & H3).
  exists e0. split; [exact H1 |]. split; [exact H2 |].
  destruct H3 as [H3 | [H3 _]]; [left | right]; exact H3.
Defined.

(** ** The secret store *)

Lemma persist_client_secrets cfg x s :
  client_secrets (persist_dcr_secret cfg x s) = client_secrets s.
Proof.
  unfold persist_dcr_secret, write_secrets.
  destruct (files s !! dcr_secrets_path cfg) as [[| | | | |] |];
    repeat (destruct (existsb _ _)); try destruct (py_in _ _); reflexivity.
Qed.

Lemma py_in_cons_self x l : py_in (JStr x) (JStr x :: l) = true.
Proof. simpl. rewrite String.eqb_refl. reflexivity. Qed.

Lemma write_secrets_cases path l s :
  write_secrets path l s = s \/
  (files (write_secrets path l s) = <[path := YList l]> (files s) /\
   write_secrets path l s = set_files (<[path := YList l]> (files s)) s /\
   existsb (String.eqb path) (readonly s) = false).
Proof.
  unfold write_secrets. destruct (existsb (String.eqb path) (readonly s)) eqn:E; [left | right]; auto.
Qed.

Lemma persist_dcr_secret_idempotent cfg x s :
  persist_dcr_secret cfg (JStr x) (persist_dcr_secret cfg (JStr x) s)
  = persist_dcr_secret cfg (JStr x) s.
Proof.
  set (p := dcr_secrets_path cfg).
  assert (Hw : forall l, persist_dcr_secret cfg (JStr x) s = write_secrets p l s ->
            py_in (JStr x) l = true ->
            persist_dcr_secret cfg (JStr x) (write_secrets p l s) = write_secrets p l s).
  { intros l Hp Hl. destruct (write_secrets_cases p l s) as [He | (Hf & Heq & Hro)].
    - rewrite He in Hp |- *. exact Hp.
    - unfold persist_dcr_secret at 1. fold p. rewrite Hf, lookup_insert_eq, Hl. reflexivity. }
  destruct (files s !! p) as [[l | t | v | | |] |] eqn:E.
  - destruct (py_in (JStr x) l) eqn:Ein.
    + assert (Hs : persist_dcr_secret cfg (JStr x) s = s).
      { unfold persist_dcr_secret. fold p. rewrite E, Ein. reflexivity. }
      rewrite Hs. exact Hs.
    + assert (Hs : persist_dcr_secret cfg (JStr x) s = write_secrets p (l ++ [JStr x]) s).
      { unfold persist_dcr_secret. fold p. rewrite E, Ein. reflexivity. }
      rewrite Hs. apply Hw; [exact Hs | apply py_in_snoc].
  - assert (Hs : persist_dcr_secret cfg (JStr x) s = s).
    { unfold persist_dcr_secret. fold p. rewrite E. reflexivity. }
    rewrite Hs. exact Hs.
  - assert (Hs : persist_dcr_secret cfg (JStr x) s = s).
    { unfold persist_dcr_secret. fold p. rewrite E. reflexivity. }
    rewrite Hs. exact Hs.
  - assert (Hs : persist_dcr_secret cfg (JStr x) s = write_secrets p [JStr x] s).
    { unfold persist_dcr_secret. fold p. rewrite E. reflexivity. }
    rewrite Hs. apply Hw; [exact Hs | apply py_in_cons_self].
  - assert (Hs : persist_dcr_secret cfg (JStr x) s = write_secrets p [JStr x] s).
    { unfold persist_dcr_secret. fold p. rewrite E. reflexivity. }
    rewrite Hs. apply Hw; [exact Hs | apply py_in_cons_self].
  - assert (Hs : persist_dcr_secret cfg (JStr x) s = s).
    { unfold persist_dcr_secret. fold p. rewrite E. reflexivity. }
    rewrite Hs. exact Hs.
  - assert (Hs : persist_dcr_secret cfg (JStr x) s = write_secrets p [JStr x] s).
    { unfold persist_dcr_secret. fold p. rewrite E. reflexivity. }
    rewrite Hs. apply Hw; [exact Hs | apply py_in_cons_self].
Qed.

(** Capturing the same DCR secret twice leaves the provider and the file
    system as capturing it once: neither the in-memory list nor the
    persisted file gains a second copy. *)
Theorem capture_secret_idempotent cfg x s :
  capture_secret cfg (JStr x) (capture_secret cfg (JStr x) s) = capture_secret cfg (JStr x) s.
Proof.
  pose proof (capture_secret_memory cfg x s) as Hm.
  unfold capture_secret at 1. rewrite Hm.
  unfold capture_secret. apply persist_dcr_secret_idempotent.
Qed.

(** [_persist_dcr_secret] writes only its own file, never changes the
    in-memory list, and never drops a secret already in the file: a
    [client_secrets] list is kept as a prefix of what is written. *)
Theorem persist_dcr_secret_preserves cfg sec s :
  client_secrets (persist_dcr_secret cfg sec s) = client_secrets s /\
  (forall p, p <> dcr_secrets_path cfg ->
     files (persist_dcr_secret cfg sec s) !! p = files s !! p) /\
  (forall l, files s !! dcr_secrets_path cfg = Some (YList l) ->
     exists k, files (persist_dcr_secret cfg sec s) !! dcr_secrets_path cfg = Some (YList (l ++ k))).
Proof.
  split; [apply persist_client_secrets | split].
  - intros p Hp. unfold persist_dcr_secret.
    assert (Hw : forall l, files (write_secrets (dcr_secrets_path cfg) l s) !! p = files s !! p).
    { intros l. destruct (write_secrets_cases (dcr_secrets_path cfg) l s) as [-> | (Hf & _)];
        [reflexivity |]. rewrite Hf. apply lookup_insert_ne. congruence. }
    destruct (files s !! dcr_secrets_path cfg) as [[l | t | v | | |] |];
      try destruct (py_in _ _); auto.
  - intros l Hl. unfold persist_dcr_secret. rewrite Hl.
    destruct (py_in sec l).
    + exists []. rewrite app_nil_r. exact Hl.
    + destruct (write_secrets_cases (dcr_secrets_path cfg) (l ++ [sec]) s) as [-> | (Hf & _)].
      * exists []. rewrite app_nil_r. exact Hl.
      * exists [sec]. rewrite Hf. apply lookup_insert_eq.
Qed.

Definition old_secrets_fs : gmap string yfile :=
  <["/etc/mcp/secrets/dcr-captured-secrets.yaml" := YList [JStr "old"]]> ∅.

Lemma persist_dcr_secret_preserves_witness :
  exists k, files (persist_dcr_secret sample_cfg (JStr "new")
                     (set_files old_secrets_fs (initial_state [])))
              !! dcr_secrets_path sample_cfg = Some (YList ([JStr "old"] ++ k)).
Proof.
  apply (proj2 (proj2 (persist_dcr_secret_preserves sample_cfg (JStr "new")
                         (set_files old_secrets_fs (initial_state []))))).
  vm_compute. reflexivity.
Defined.

Lemma py_in_map_jstr_dec x cs : py_in (JStr x) (map JStr cs) = true <-> In x cs.
Proof. apply py_in_map_jstr. Qed.

(** The loop of [__init__] that adds the DCR-captured secrets file:
    the list built so far is kept as a prefix, every secret of the file
    ends up in the list, and no duplicate is introduced. *)
Theorem append_new_merge cs l :
  exists m, append_new (map JStr cs) (map JStr l) = map JStr (cs ++ m) /\
    (forall x, In x l -> In x (cs ++ m)) /\
    (NoDup cs -> NoDup (cs ++ m)).
Proof.
  revert cs. induction l as [| x l IH]; intros cs.
  - exists []. rewrite app_nil_r. split; [reflexivity |]. split; [intros x [] | tauto].
  - simpl. destruct (py_in (JStr x) (map JStr cs)) eqn:E.
    + destruct (IH cs) as (m & Hm & Hin & Hnd). exists m. split; [exact Hm |].
      split; [| exact Hnd].
      intros y [<- | Hy]; [| apply Hin, Hy].
      apply in_or_app. left. apply py_in_map_jstr_dec, E.
    + replace (map JStr cs ++ [JStr x]) with (map JStr (cs ++ [x]))
        by (rewrite map_app; reflexivity).
      destruct (IH (cs ++ [x])) as (m & Hm & Hin & Hnd). exists (x :: m).
      rewrite <- app_assoc in Hm, Hin, Hnd. simpl in Hm, Hin, Hnd.
      split; [exact Hm |]. split.
      * intros y [<- | Hy]; [| apply Hin, Hy].
        apply in_or_app. right. left. reflexivity.
      * intros Hcs. apply Hnd.
        assert (Hx : ~ In x cs).
        { intros H. apply py_in_map_jstr_dec in H. congruence. }
        apply NoDup_app. split; [exact Hcs |]. split; [| apply NoDup_singleton].
        intros y Hy Hy'. rewrite list_elem_of_In in Hy, Hy'.
        destruct Hy' as [<- | []]. contradiction.
Qed.

Lemma append_new_merge_witness :
  exists m, append_new (map JStr ["a"]) (map JStr ["b"; "a"; "b"]) = map JStr (["a"] ++ m) /\
    (forall x, In x ["b"; "a"; "b"] -> In x (["a"] ++ m)) /\
    (NoDup ["a"] -> NoDup (["a"] ++ m)).
Proof. apply append_new_merge. Defined.

(** ** The JWE candidate keys *)

Lemma b64_candidate_shape urlsafe_b64decode secret :
  Forall (fun k => length k.2 = 32%nat) (b64_candidate urlsafe_b64decode secret) /\
  (length (b64_candidate urlsafe_b64decode secret) <= 1)%nat.
Proof.
  unfold b64_candidate. cbv zeta.
  destruct (is_ascii _); [| split; [constructor | simpl; lia]].
  destruct (urlsafe_b64decode _) as [decoded |]; [| split; [constructor | simpl; lia]].
  destruct (Nat.eqb_spec (length decoded) 32); [| split; [constructor | simpl; lia]].
  split; [constructor; [exact e | constructor] | simpl; lia].
Qed.

(** Whatever the secret, [_prepare_jwe_key] yields between two and five
    candidates; the SHA-256 digest is always one of them and the raw
    UTF-8 bytes are always the last; when the digest has 32 bytes, every
    candidate before the last has exactly 32 bytes. *)
Theorem prepare_jwe_key_shape urlsafe_b64decode sha256 secret :
  (forall b, length (sha256 b) = 32%nat) ->
  let keys := prepare_jwe_key urlsafe_b64decode sha256 secret in
  (2 <= length keys <= 5)%nat /\
  last keys = Some ("raw", utf8_encode secret) /\
  In ("sha256-hash", sha256 (utf8_encode secret)) keys /\
  Forall (fun k => length k.2 = 32%nat) (removelast keys).
Proof.
  intros Hsha keys. unfold keys, prepare_jwe_key.
  destruct (b64_candidate_shape urlsafe_b64decode secret) as [Hb Hbl].
  set (B := b64_candidate urlsafe_b64decode secret) in *.
  set (sb := utf8_encode secret).
  set (D := if Nat.eqb (length sb) 32 then [("utf8-direct", sb)] else []).
  set (T := if (32 <=? length sb)%nat then [("utf8-truncated", firstn 32 sb)] else []).
  assert (HD : Forall (fun k => length k.2 = 32%nat) D /\ (length D <= 1)%nat).
  { unfold D. destruct (Nat.eqb_spec (length sb) 32);
      [split; [constructor; [exact e | constructor] | simpl; lia] | split; [constructor | simpl; lia]]. }
  assert (HT : Forall (fun k => length k.2 = 32%nat) T /\ (length T <= 1)%nat).
  { unfold T. destruct (Nat.leb_spec 32 (length sb)).
    - split; [constructor; [simpl; apply firstn_length_le; exact H | constructor] | simpl; lia].
    - split; [constructor | simpl; lia]. }
  destruct HD as [HD HDl]. destruct HT as [HT HTl].
  assert (Heq : B ++ [("sha256-hash", sha256 sb)] ++ D ++ T ++ [("raw", sb)]
                = (B ++ [("sha256-hash", sha256 sb)] ++ D ++ T) ++ [("raw", sb)]).
  { rewrite <- !app_assoc. reflexivity. }
  rewrite Heq. split; [| split; [| split]].
  - rewrite !length_app. simpl. lia.
  - apply last_snoc.
  - apply in_or_app. left. apply in_or_app. right. left. reflexivity.
  - rewrite removelast_last. apply Forall_app. split; [exact Hb |].
    constructor; [apply Hsha |]. apply Forall_app. split; assumption.
Qed.

Lemma prepare_jwe_key_shape_witness :
  let keys := prepare_jwe_key no_b64 sha_stub "s3cr3t" in
  (2 <= length keys <= 5)%nat /\
  last keys = Some ("raw", utf8_encode "s3cr3t") /\
  In ("sha256-hash", sha_stub (utf8_encode "s3cr3t")) keys /\
  Forall (fun k => length k.2 = 32%nat) (removelast keys).
Proof. apply prepare_jwe_key_shape. intros b. reflexivity. Defined.

Lemma decrypt_jwe_token_flat_witness :
  decrypt_jwe_token no_b64 sha_stub jwe_stub loads_stub jwe_token [JStr "a"; JStr "b"]
  = match try_keys jwe_stub loads_stub jwe_token
            (flat_map (fun v => match v with
                                | JStr sec => prepare_jwe_key no_b64 sha_stub sec
                                | _ => []
                                end) [JStr "a"; JStr "b"]) with
    | Some c => Ok c
    | None => Raise (JoseError jwe_exhausted_msg "")
    end.
Proof. apply decrypt_jwe_token_flat. reflexivity. Defined.

(** ** The Management API *)

Definition mgmt_patch_data (app_type : string) : json :=
  JObj [("app_type", JStr app_type);
        ("token_endpoint_auth_method", JStr "none");
        ("jwt_configuration", JObj [("alg", JStr "RS256")])].

(** [_update_client_type] reports success exactly when a Management API
    token was obtained and the PATCH of
    <issuer without trailing slashes>/api/v2/clients/<client_id>, with
    that token as Bearer credential and a body setting the app type,
    token_endpoint_auth_method "none" and RS256 signing, answered 200;
    any other status, such as 204, counts as a failure. *)
Theorem update_client_type_true token_post patch_client cfg sec client_id app_type :
  update_client_type token_post patch_client cfg sec client_id app_type = true <->
  exists access_token,
    get_management_api_token token_post cfg sec = Ok access_token /\
    patch_client (py_rstrip "/" (issuer cfg) +:+ "/api/v2/clients/" +:+ py_str client_id)
      [("Authorization", "Bearer " +:+ py_str access_token);
       ("Content-Type", "application/json")]
      (mgmt_patch_data app_type) = Ok 200.
Proof.
  unfold update_client_type.
  destruct (get_management_api_token token_post cfg sec) as [tok | e].
  - fold (mgmt_patch_data app_type).
    destruct (patch_client _ _ _) as [st | e] eqn:E.
    + split.
      * intros H. apply Z.eqb_eq in H. subst. exists tok. split; [reflexivity | exact E].
      * intros (tok' & Ht & Hp). injection Ht as <-. rewrite Hp in E.
        injection E as <-. reflexivity.
    + split; [discriminate |]. intros (tok' & Ht & Hp). injection Ht as <-. congruence.
  - split; [discriminate |]. intros (tok & Ht & _). discriminate.
Qed.

(** Without a Management API client id or client secret, no request is
    sent: the token request fails with a ValueError whatever the network
    does, and [_update_client_type] returns False. *)
Theorem update_client_type_without_credentials cfg sec client_id app_type :
  opt_truthy (mgmt_client_id cfg) = false \/ opt_truthy sec = false ->
  forall token_post patch_client,
    update_client_type token_post patch_client cfg sec client_id app_type = false /\
    exists m, get_management_api_token token_post cfg sec = Raise (ValueError m).
Proof.
  intros H token_post patch_client.
  assert (Ht : exists m, get_management_api_token token_post cfg sec = Raise (ValueError m)).
  { unfold get_management_api_token.
    destruct H as [H | H]; rewrite H; simpl.
    - eexists. reflexivity.
    - destruct (opt_truthy (mgmt_client_id cfg)); simpl; eexists; reflexivity. }
  split; [| exact Ht]. destruct Ht as [m Hm].
  unfold update_client_type. rewrite Hm. reflexivity.
Qed.

Definition token_granted : string -> json -> res json :=
  fun _ _ => Ok (JObj [("access_token", JStr "tok")]).
Definition ok_patch : string -> list (string * string) -> json -> res Z := fun _ _ _ => Ok 200.

Lemma update_client_type_without_credentials_witness :
  update_client_type token_granted ok_patch sample_cfg (Some "secret") (JStr "c-42") "native"
    = false /\
  exists m, get_management_api_token token_granted sample_cfg (Some "secret") = Raise (ValueError m).
Proof.
  apply (update_client_type_without_credentials sample_cfg (Some "secret") (JStr "c-42") "native").
  left. reflexivity.
Defined.

(** The configuration with another issuer. *)
Definition with_issuer (cfg : config) (i : string) : config :=
  mkConfig i (audience cfg) (public_url cfg) (required_scope cfg) (cache_ttl cfg)
           (client_secrets_file cfg) (mgmt_client_id cfg) (dcr_secrets_default cfg).

(** The Management API requests ignore trailing slashes of the issuer:
    an issuer with one more trailing slash yields the same token request
    and the same PATCH. *)
Theorem mgmt_api_issuer_trailing_slash token_post patch_client cfg sec client_id app_type :
  get_management_api_token token_post (with_issuer cfg (issuer cfg +:+ "/")) sec
    = get_management_api_token token_post cfg sec /\
  update_client_type token_post patch_client (with_issuer cfg (issuer cfg +:+ "/")) sec
                     client_id app_type
    = update_client_type token_post patch_client cfg sec client_id app_type.
Proof.
  assert (Ht : get_management_api_token token_post (with_issuer cfg (issuer cfg +:+ "/")) sec
               = get_management_api_token token_post cfg sec).
  { unfold get_management_api_token. simpl. rewrite py_rstrip_slash. reflexivity. }
  split; [exact Ht |]. unfold update_client_type. rewrite Ht. simpl.
  rewrite py_rstrip_slash. reflexivity.
Qed.

(** ** Discovery *)

(** [_discover_jwks_uri] either returns the non-empty [jwks_uri] of the
    configuration document, or raises a ValueError whose message starts
    with "Failed to discover JWKS URI from <url>: "; no other exception
    leaves it. *)
Theorem discover_jwks_uri_outcomes well_known_url reply :
  (exists kv v, reply = Ok (JObj kv) /\ dget "jwks_uri" kv = Some v /\ truthy v = true /\
                discover_jwks_uri well_known_url reply = Ok v) \/
  (exists m, discover_jwks_uri well_known_url reply
             = Raise (ValueError ("Failed to discover JWKS URI from " +:+ well_known_url +:+
                                  ": " +:+ m))).
Proof.
  unfold discover_jwks_uri.
  destruct reply as [[| b | z | t | l | kv] | e]; try (right; eexists; reflexivity).
  destruct (dget "jwks_uri" kv) as [v |] eqn:E; [| right; eexists; reflexivity].
  destruct (truthy v) eqn:T; [| right; eexists; reflexivity].
  left. exists kv, v. auto.
Qed.

(** The DCR endpoint chosen by [__init__]: a non-empty
    [registration_endpoint] of a 200 document wins over the proxy URL;
    the proxy URL is used when the request raises or the 200 document
    has no such endpoint; a reply with any other status leaves the
    endpoint unset even when a proxy URL is configured. *)
Theorem discover_dcr_endpoint_cases dcr_proxy_url :
  (forall kv ep, dget "registration_endpoint" kv = Some ep -> truthy ep = true ->
     discover_dcr_endpoint dcr_proxy_url (Ok (200, Ok (JObj kv))) = ep) /\
  (forall kv, (forall ep, dget "registration_endpoint" kv = Some ep -> truthy ep = false) ->
     discover_dcr_endpoint dcr_proxy_url (Ok (200, Ok (JObj kv)))
     = if opt_truthy dcr_proxy_url then JStr (default "" dcr_proxy_url) else JNull) /\
  (forall e, discover_dcr_endpoint dcr_proxy_url (Raise e)
     = if opt_truthy dcr_proxy_url then JStr (default "" dcr_proxy_url) else JNull) /\
  (forall status_code body, status_code <> 200 ->
     discover_dcr_endpoint dcr_proxy_url (Ok (status_code, body)) = JNull).
Proof.
  split; [| split; [| split]].
  - intros kv ep He Ht. unfold discover_dcr_endpoint. simpl. rewrite He, Ht. reflexivity.
  - intros kv Hn. unfold discover_dcr_endpoint. simpl.
    destruct (dget "registration_endpoint" kv) as [ep |] eqn:E; [| reflexivity].
    rewrite (Hn ep eq_refl). reflexivity.
  - intros e. reflexivity.
  - intros st body Hst. unfold discover_dcr_endpoint.
    apply Z.eqb_neq in Hst. rewrite Hst. reflexivity.
Qed.

Lemma discover_dcr_endpoint_cases_witness :
  discover_dcr_endpoint (Some "https://dcr-proxy.example.com/register")
    (Ok (200, Ok (JObj [("registration_endpoint", JStr "https://idp.example.com/oidc/register")])))
  = JStr "https://idp.example.com/oidc/register" /\
  discover_dcr_endpoint (Some "https://dcr-proxy.example.com/register") (Ok (200, Ok (JObj [])))
  = JStr "https://dcr-proxy.example.com/register" /\
  discover_dcr_endpoint (Some "https://dcr-proxy.example.com/register") (Ok (503, Ok (JObj [])))
  = JNull.
Proof.
  destruct (discover_dcr_endpoint_cases (Some "https://dcr-proxy.example.com/register"))
    as (H1 & H2 & _ & H4).
  split; [| split].
  - apply H1; reflexivity.
  - apply H2. intros ep He. discriminate.
  - apply H4. discriminate.
Defined.

(** ** The metadata endpoints *)

(** The value [add_registration] stores. *)
Definition registration_url (cfg : config) : string :=
  match public_url cfg with
  | Some pu => if String.eqb pu "" then "/register" else py_rstrip "/" pu +:+ "/register"
  | None => "/register"
  end.

Lemma add_registration_get cfg dcr md :
  dget "registration_endpoint" (add_registration cfg dcr md)
  = if truthy dcr then Some (JStr (registration_url cfg)) else dget "registration_endpoint" md.
Proof.
  unfold add_registration, registration_url.
  destruct (truthy dcr); [| reflexivity].
  destruct (public_url cfg) as [pu |]; [destruct (String.eqb pu "") |]; apply dget_dset_same.
Qed.

Lemma add_registration_other cfg dcr md k :
  k <> "registration_endpoint" ->
  dget k (add_registration cfg dcr md) = dget k md.
Proof.
  intros Hk. unfold add_registration.
  destruct (truthy dcr); [| reflexivity].
  destruct (public_url cfg) as [pu |]; [destruct (String.eqb pu "") |];
    apply dget_dset_other; exact Hk.
Qed.

Lemma oauth_metadata_ok cfg jwks_uri dcr reply md :
  oauth_metadata cfg jwks_uri dcr reply = Ok (JObj md) ->
  exists base, md = add_registration cfg dcr base /\
    dget "registration_endpoint" base = None /\
    dget "issuer" base = Some (JStr (advertised_issuer cfg)) /\
    dget "scopes_supported" base = Some (JArr (map JStr (scopes_supported cfg))).
Proof.
  unfold oauth_metadata. intros H.
  destruct (match reply with
            | Ok (status_code, Ok j) => if Z.eqb status_code 200 then j else JObj []
            | _ => JObj []
            end); try discriminate.
  injection H as <-. eexists. split; [reflexivity |]. split; [| split]; reflexivity.
Qed.

(** The two metadata documents agree: both advertise the same issuer
    (the public URL without trailing slashes when configured, else the
    backend issuer), and both carry the same [registration_endpoint],
    present exactly when the /register route is mounted. *)
Theorem metadata_documents_agree cfg jwks_uri dcr reply md :
  oauth_metadata cfg jwks_uri dcr reply = Ok (JObj md) ->
  exists pr, protected_resource_metadata cfg dcr = JObj pr /\
    dget "registration_endpoint" pr = dget "registration_endpoint" md /\
    (dget "registration_endpoint" md <> None <->
     In ("/register", "POST") (get_metadata_routes dcr)) /\
    dget "issuer" md = Some (JStr (advertised_issuer cfg)) /\
    dget "authorization_servers" pr = Some (JArr [JStr (advertised_issuer cfg)]).
Proof.
  intros H. destruct (oauth_metadata_ok _ _ _ _ _ H) as (base & -> & Hr & Hi & _).
  eexists. split; [reflexivity |]. split; [| split; [| split]].
  - rewrite !add_registration_get, Hr. reflexivity.
  - rewrite add_registration_get, Hr. unfold get_metadata_routes.
    destruct (truthy dcr); simpl.
    + split; [intros _; right; right; left; reflexivity | discriminate].
    + split; [tauto |]. intros [E | [E | []]]; discriminate.
  - rewrite add_registration_other by discriminate. exact Hi.
  - rewrite add_registration_other by discriminate. reflexivity.
Qed.

Definition public_cfg : config :=
  mkConfig "https://tenant.auth0.com/" "mcp-api" (Some "https://mcp.example.com//") None 3600
           None None "/etc/mcp/secrets/dcr-captured-secrets.yaml".

Lemma metadata_documents_agree_witness :
  exists pr, protected_resource_metadata public_cfg (JStr "https://tenant.auth0.com/oidc/register")
             = JObj pr /\
    dget "registration_endpoint" pr = Some (JStr "https://mcp.example.com/register") /\
    (True <-> In ("/register", "POST")
                 (get_metadata_routes (JStr "https://tenant.auth0.com/oidc/register"))) /\
    dget "authorization_servers" pr = Some (JArr [JStr "https://mcp.example.com"]).
Proof.
  destruct (metadata_documents_agree public_cfg (JStr "https://tenant.auth0.com/jwks")
              (JStr "https://tenant.auth0.com/oidc/register") (Raise (OtherError "ConnectError" ""))
              _ eq_refl) as (pr & Hpr & Hr & Hin & Hi & Ha).
  exists pr. split; [exact Hpr |]. split; [| split].
  - rewrite Hr. reflexivity.
  - split; [intros _; apply Hin; discriminate | tauto].
  - exact Ha.
Defined.

(** The scopes advertised: the authorization-server document lists the
    required scope first when one is set, always lists "openid", and
    lists nothing twice; the protected-resource document lists a single
    scope, which is one of those. *)
Theorem scopes_supported_openid cfg jwks_uri dcr reply md :
  oauth_metadata cfg jwks_uri dcr reply = Ok (JObj md) ->
  dget "scopes_supported" md = Some (JArr (map JStr (scopes_supported cfg))) /\
  In "openid" (scopes_supported cfg) /\ NoDup (scopes_supported cfg) /\
  (forall r, required_scope cfg = Some r -> r <> "" -> head (scopes_supported cfg) = Some r) /\
  (exists pr x, protected_resource_metadata cfg dcr = JObj pr /\
     dget "scopes_supported" pr = Some (JArr [JStr x]) /\ In x (scopes_supported cfg)).
Proof.
  intros H. destruct (oauth_metadata_ok _ _ _ _ _ H) as (base & -> & _ & _ & Hs).
  split; [rewrite add_registration_other by discriminate; exact Hs |].
  unfold scopes_supported, protected_resource_metadata.
  destruct (required_scope cfg) as [r |] eqn:Er.
  - destruct (String.eqb_spec r "") as [-> | Hne].
    + simpl. split; [left; reflexivity |]. split; [apply NoDup_singleton |].
      split; [intros r' Hr' Hne'; injection Hr' as <-; contradiction |].
      do 2 eexists. split; [reflexivity |].
      rewrite add_registration_other by discriminate. split; [reflexivity | left; reflexivity].
    + cbn [existsb].
      destruct (String.eqb_spec "openid" r) as [<- | Ho]; cbn [orb app].
      * split; [left; reflexivity |]. split; [apply NoDup_singleton |].
        split; [intros r' Hr' _; injection Hr' as <-; reflexivity |].
        do 2 eexists. split; [reflexivity |].
        rewrite add_registration_other by discriminate. split; [reflexivity | left; reflexivity].
      * split; [right; left; reflexivity |]. split.
        -- constructor; [| apply NoDup_singleton].
           rewrite list_elem_of_In. intros [E | []]. congruence.
        -- split; [intros r' Hr' _; injection Hr' as <-; reflexivity |].
           do 2 eexists. split; [reflexivity |].
           rewrite add_registration_other by discriminate.
           split; [reflexivity | left; reflexivity].
  - simpl. split; [left; reflexivity |]. split; [apply NoDup_singleton |].
    split; [intros r' Hr'; discriminate |].
    do 2 eexists. split; [reflexivity |].
    rewrite add_registration_other by discriminate. split; [reflexivity | left; reflexivity].
Qed.

Lemma scopes_supported_openid_witness :
  exists md, oauth_metadata scoped_cfg JNull JNull (Raise (OtherError "ConnectError" ""))
             = Ok (JObj md) /\
    dget "scopes_supported" md = Some (JArr [JStr "mcp:read"; JStr "openid"]).
Proof.
  eexists. split; [reflexivity |].
  destruct (scopes_supported_openid scoped_cfg JNull JNull (Raise (OtherError "ConnectError" ""))
              _ eq_refl) as [Hs _].
  exact Hs.
Defined.

(** Without a 200 JSON document from the issuer, the token and
    authorization endpoints are derived from the issuer string as
    configured, without removing a trailing slash: Auth0-style paths
    when it contains "auth0.com", Keycloak-style paths otherwise. *)
Theorem oauth_metadata_fallback_endpoints cfg jwks_uri dcr reply :
  (forall status_code j, reply = Ok (status_code, Ok j) -> status_code <> 200) ->
  exists md, oauth_metadata cfg jwks_uri dcr reply = Ok (JObj md) /\
    dget "token_endpoint" md =
      Some (JStr (issuer cfg +:+ (if str_contains "auth0.com" (issuer cfg)
                                  then "/oauth/token" else "/protocol/openid-connect/token"))) /\
    dget "authorization_endpoint" md =
      Some (JStr (issuer cfg +:+ (if str_contains "auth0.com" (issuer cfg)
                                  then "/authorize" else "/protocol/openid-connect/auth"))).
Proof.
  intros H. unfold oauth_metadata.
  assert (Hu : match reply with
               | Ok (status_code, Ok j) => if Z.eqb status_code 200 then j else JObj []
               | _ => JObj []
               end = JObj []).
  { destruct reply as [[st [j | e]] | e]; try reflexivity.
    specialize (H st j eq_refl). apply Z.eqb_neq in H. rewrite H. reflexivity. }
  rewrite Hu. eexists. split; [reflexivity |].
  rewrite !add_registration_other by discriminate. simpl.
  destruct (str_contains "auth0.com" (issuer cfg)); split; reflexivity.
Qed.

Lemma oauth_metadata_fallback_endpoints_witness :
  exists md, oauth_metadata public_cfg JNull JNull (Ok (503, Ok (JObj []))) = Ok (JObj md) /\
    dget "token_endpoint" md = Some (JStr "https://tenant.auth0.com//oauth/token") /\
    dget "authorization_endpoint" md = Some (JStr "https://tenant.auth0.com//authorize").
Proof.
  apply (oauth_metadata_fallback_endpoints public_cfg JNull JNull (Ok (503, Ok (JObj [])))).
  intros st j E. injection E as <- _. discriminate.
Defined.

(** ** The DCR proxy *)

Lemma lookup_delete_not_hop (h : gmap string string) k :
  ~ In k hop_by_hop -> foldr delete h hop_by_hop !! k = h !! k.
Proof.
  intros Hn. unfold hop_by_hop in *. simpl.
  rewrite !lookup_delete_ne; [reflexivity | ..]; intros E; apply Hn; subst; simpl; tauto.
Qed.

Lemma lookup_delete_all (h : gmap string string) l k :
  In k l -> foldr delete h l !! k = None.
Proof.
  induction l as [| a l IH]; intros Hin; [destruct Hin |]. cbn [foldr].
  destruct (String.eqb_spec a k) as [-> | Hne].
  - apply lookup_delete_eq.
  - rewrite lookup_delete_ne by exact Hne. apply IH.
    destruct Hin as [-> | Hin]; [contradiction | exact Hin].
Qed.

(** The headers [register_client] forwards: the request's headers minus
    the hop-by-hop ones, none of which is left; when the body was a JSON object and is
    re-serialised, content-length is replaced by the decimal length of
    the new body; when the body is not JSON it is forwarded with the
    request's own headers (content-length included). *)
Theorem prepare_forward_headers decodes_other json_parse json_dumps body raw_headers :
  (forall kv, json_loads decodes_other json_parse body = Loaded (JObj kv) ->
     let mb := json_dumps (JObj (force_public_client kv)) in
     exists h, prepare_forward decodes_other json_parse json_dumps body raw_headers = Ok (mb, h) /\
       h !! "content-length" = Some (py_str_nat (length mb)) /\
       (forall k, k <> "content-length" -> ~ In k hop_by_hop ->
          h !! k = headers_dict raw_headers !! k) /\
       (forall k, In k hop_by_hop -> h !! k = None)) /\
  (json_loads decodes_other json_parse body = JSONDecodeError ->
     exists h, prepare_forward decodes_other json_parse json_dumps body raw_headers = Ok (body, h) /\
       (forall k, ~ In k hop_by_hop -> h !! k = headers_dict raw_headers !! k) /\
       (forall k, In k hop_by_hop -> h !! k = None)).
Proof.
  split.
  - intros kv Hl mb. unfold prepare_forward. rewrite Hl.
    eexists. split; [reflexivity |]. split; [| split].
    + rewrite lookup_delete_not_hop.
      * apply lookup_insert_eq.
      * unfold hop_by_hop. simpl. intuition discriminate.
    + intros k Hk Hh. rewrite lookup_delete_not_hop by exact Hh.
      apply lookup_insert_ne. congruence.
    + intros k Hh. apply lookup_delete_all, Hh.
  - intros Hl. unfold prepare_forward. rewrite Hl.
    eexists. split; [reflexivity |]. split.
    + intros k Hh. apply lookup_delete_not_hop, Hh.
    + intros k Hh. apply lookup_delete_all, Hh.
Qed.

Definition browser_headers : list (string * string) :=
  [("host", "mcp.example.com"); ("content-type", "application/json");
   ("content-length", "39"); ("connection", "keep-alive")].

Lemma prepare_forward_headers_witness :
  exists h, prepare_forward any_text parse_redirect_request dumps_stub redirect_body browser_headers
            = Ok ([Byte.x7b; Byte.x7d], h) /\
    h !! "content-length" = Some "2" /\
    h !! "content-type" = Some "application/json" /\
    h !! "connection" = None.
Proof.
  destruct (proj1 (prepare_forward_headers any_text parse_redirect_request dumps_stub
                     redirect_body browser_headers)
              [("redirect_uris", JArr [JStr "https://x"])] eq_refl) as (h & Hp & Hc & Ho & Hh).
  exists h. split; [exact Hp |]. split; [exact Hc |]. split.
  - rewrite Ho; [reflexivity | discriminate |].
    unfold hop_by_hop. simpl. intuition discriminate.
  - apply Hh. unfold hop_by_hop. simpl. tauto.
Defined.



(** ** The configuration file search *)

(** [load_oidc_config_from_file]: an explicit path that exists and
    loads wins over the standard locations, even when its document is
    empty (then the result is None and [__init__] falls back to [{}]
    rather than to a later file); an explicit path that is missing or
    fails to load is skipped and the standard locations are searched. *)
Theorem load_oidc_config_explicit_path fs p :
  p <> "" ->
  (forall v, fs !! p = Some (CfgLoaded v) -> load_oidc_config_from_file fs (Some p) = v) /\
  (fs !! p = None \/ fs !! p = Some CfgUnreadable ->
     load_oidc_config_from_file fs (Some p) = load_oidc_config_from_file fs None).
Proof.
  intros Hp. apply String.eqb_neq in Hp.
  unfold load_oidc_config_from_file, config_search_paths. rewrite Hp. simpl.
  split.
  - intros v Hv. rewrite Hv. reflexivity.
  - intros [Hn | Hn]; rewrite Hn; reflexivity.
Qed.

Definition oidc_files : gmap string cfg_file :=
  <["/srv/oidc-empty.yaml" := CfgLoaded JNull]>
  (<["/etc/mcp/oidc.yaml" := CfgLoaded (JObj [("issuer", JStr "https://idp.example.com")])]> ∅).

Lemma load_oidc_config_explicit_path_witness :
  load_oidc_config_from_file oidc_files (Some "/srv/oidc-empty.yaml") = JNull /\
  load_oidc_config_from_file oidc_files None = JObj [("issuer", JStr "https://idp.example.com")].
Proof.
  split.
  - apply (proj1 (load_oidc_config_explicit_path oidc_files "/srv/oidc-empty.yaml" ltac:(discriminate))).
    vm_compute. reflexivity.
  - vm_compute. reflexivity.
Defined.

(** ** A key set without countable keys *)

(** When the key set is not a mapping, or its [keys] entry is None, a
    boolean or a number, the debug line's [len(jwks_data.get('keys', []))]
    raises [AttributeError] or [TypeError] before [jwt.decode] runs: the
    outcome does not depend on the decoder, the exception is not a
    [JoseError] (so the re-raise in [verify_token] does not apply), and
    the middleware answers it with its generic 500. *)
Theorem verify_jwt_uncountable_keys jwt_decode jwt_decode' cfg token jwks_data :
  match jwks_data with
  | JObj kv =>
      match dget "keys" kv with
      | Some JNull | Some (JBool _) | Some (JNum _) => True
      | _ => False
      end
  | _ => True
  end ->
  exists cls m,
    verify_jwt jwt_decode cfg token jwks_data = Raise (OtherError cls m) /\
    verify_jwt jwt_decode' cfg token jwks_data = Raise (OtherError cls m) /\
    handle_auth_error (OtherError cls m) = Ok generic_500.
Proof.
  intros H. unfold verify_jwt, jwks_key_count.
  destruct jwks_data as [| | | | | kv].
  6: destruct (dget "keys" kv) as [[| | | | |] |]; try contradiction.
  all: do 2 eexists; split; [reflexivity | split; [reflexivity | vm_compute; reflexivity]].
Qed.

Lemma verify_jwt_uncountable_keys_witness :
  exists cls m,
    verify_jwt no_decode sample_cfg "h.p.s" (JObj [("keys", JNull)]) = Raise (OtherError cls m) /\
    verify_jwt wide_iss_decode sample_cfg "h.p.s" (JObj [("keys", JNull)])
      = Raise (OtherError cls m) /\
    handle_auth_error (OtherError cls m) = Ok generic_500.
Proof. apply verify_jwt_uncountable_keys. exact I. Defined.

(** ** The DCR secrets file at start-up *)

(** [__init__] reads the DCR-captured secrets file only in the branch
    where [mgmt_client_secret_file] is set: otherwise [Path] is an
    unbound local name, the [UnboundLocalError] is caught, and the
    secret list is the same as without that file. *)
Theorem init_ignores_dcr_file explicit cfg_cs cfg_cs_file mgmt_secret_file dcr fs :
  truthy mgmt_secret_file = false ->
  (forall f, cfg_cs_file = Some f -> f <> dcr) ->
  init_client_secrets explicit cfg_cs cfg_cs_file mgmt_secret_file dcr fs
  = init_client_secrets explicit cfg_cs cfg_cs_file mgmt_secret_file dcr (delete dcr fs).
Proof.
  intros Hm Hf. unfold init_client_secrets. rewrite Hm. cbn [negb].
  destruct cfg_cs_file as [f |]; [| reflexivity].
  destruct (String.eqb f ""); [reflexivity |].
  rewrite lookup_delete_ne by (intros E; apply (Hf f eq_refl); symmetry; exact E).
  reflexivity.
Qed.

Definition dcr_only_fs : gmap string yfile :=
  <["/etc/mcp/secrets/dcr-captured-secrets.yaml" := YList [JStr "captured"]]> ∅.

Lemma init_ignores_dcr_file_witness :
  init_client_secrets (Some [JStr "a"]) None None JNull
    "/etc/mcp/secrets/dcr-captured-secrets.yaml" dcr_only_fs
  = init_client_secrets (Some [JStr "a"]) None None JNull
    "/etc/mcp/secrets/dcr-captured-secrets.yaml"
    (delete "/etc/mcp/secrets/dcr-captured-secrets.yaml" dcr_only_fs) /\
  init_client_secrets (Some [JStr "a"]) None None (JStr "/run/mgmt-secret")
    "/etc/mcp/secrets/dcr-captured-secrets.yaml" dcr_only_fs = [JStr "a"; JStr "captured"].
Proof.
  split.
  - apply init_ignores_dcr_file; [reflexivity | discriminate].
  - vm_compute. reflexivity.
Defined.
